(** * Health monitor app: the metric synchronisation code and the session
    state of the live-session screen

    Shallow embedding of
    - [src/services/metricsStore.ts]  (the local metric store, two backends),
    - [src/services/api.ts]           ([fetchLatestMetrics]),
    - [src/screens/JoinRoomScreen.tsx] (the error-message extraction of
      [requestToken]),
    - [src/screens/LiveSessionScreen.tsx] ([loadMetrics], the socket's
      [onmessage] handler, [retryConnect] and the LiveKit callbacks).

    Run-time values are JavaScript values: the TypeScript casts
    ([payload.data as HealthMetric[]], [payload as HealthMetric]) check
    nothing, so the view and the memory cache hold whatever the channel
    delivered. *)

From Stdlib Require Import ZArith String Ascii List Lia.
From Stdlib Require QArith Qround Qminmax Lqa.
From stdpp Require Import base option list gmap strings sorting pretty.

Set Warnings "-register-all".

Open Scope string_scope.
Open Scope Z_scope.

(** ** JavaScript values *)

Module JS.

(** The values [JSON.parse] builds, plus [undefined], which reading an absent
    property yields.  Numbers are carried as integers: the code modelled here
    only tests them for truthiness and for equality, it never computes with
    them.  An object is the list of its own properties in the order
    [JSON.parse] produced them, each key once. *)
Inductive jsval : Type :=
  | JUndefined
  | JNull
  | JBool (b : bool)
  | JNum (n : Z)
  | JStr (s : string)
  | JArr (items : list jsval)
  | JObj (fields : list (string * jsval)).

(** Own-property lookup in a field list. *)
Fixpoint lookup_field (k : string) (fields : list (string * jsval)) : jsval :=
  match fields with
  | [] => JUndefined
  | (k', v) :: rest => if String.eqb k k' then v else lookup_field k rest
  end.

(** [v.k]: [None] stands for the TypeError that reading a property of
    [null] or [undefined] throws.  The keys read by the code ([type], [data],
    [metric_type], [id], [value], [unit], [recorded_at], [detail], [msg]) are
    not built-in properties of arrays, strings, numbers or booleans, where the
    read gives [undefined]. *)
Definition get (v : jsval) (k : string) : option jsval :=
  match v with
  | JUndefined | JNull => None
  | JObj fields => Some (lookup_field k fields)
  | _ => Some JUndefined
  end.

(** [v?.k]: optional chaining turns the TypeError into [undefined]. *)
Definition get_opt (v : jsval) (k : string) : jsval :=
  match get v k with
  | Some x => x
  | None => JUndefined
  end.

(** Truthiness, as [if (v)] and [!v] test it. *)
Definition truthy (v : jsval) : bool :=
  match v with
  | JUndefined | JNull => false
  | JBool b => b
  | JNum n => negb (n =? 0)
  | JStr s => negb (String.eqb s "")
  | JArr _ | JObj _ => true
  end.

(** [v === s] for a string literal [s]. *)
Definition strict_eq_str (v : jsval) (s : string) : bool :=
  match v with
  | JStr t => String.eqb t s
  | _ => false
  end.

(** [Array.isArray(v)]. *)
Definition isArray (v : jsval) : bool :=
  match v with
  | JArr _ => true
  | _ => false
  end.

(** [typeof v === 'string'], giving the string. *)
Definition as_string (v : jsval) : option string :=
  match v with
  | JStr s => Some s
  | _ => None
  end.

(** [a ?? b]. *)
Definition nullish_or (a b : jsval) : jsval :=
  match a with
  | JUndefined | JNull => b
  | _ => a
  end.

(** [l.slice(0, n)]: a negative end counts from the end of the array. *)
Definition slice0 {A} (n : Z) (l : list A) : list A :=
  if n <? 0 then take (Z.to_nat (Z.max (Z.of_nat (length l) + n) 0)) l
  else take (Z.to_nat n) l.

(** What a [throw] or a rejected promise carries: an [Error] instance with its
    message, or some other value. *)
Inductive thrown : Type :=
  | ThrownError (message : string)
  | ThrownOther.

(** How an awaited call ends. *)
Inductive outcome (A : Type) : Type :=
  | Resolved (a : A)
  | Rejected (e : thrown).
Arguments Resolved {A} a.
Arguments Rejected {A} e.

End JS.
Export JS.

(** ** api.ts: the reading type *)

Module Metric.

(** [unit?: string | null]. *)
Inductive unit_field : Type :=
  | UnitAbsent
  | UnitNull
  | UnitText (u : string).

(** [export type HealthMetric]. *)
Record HealthMetric : Type := mkHealthMetric {
  id : Z;
  metric_type : string;
  value : Z;
  unit : unit_field;
  recorded_at : string
}.

(** The object a well-typed reading is at run time. *)
Definition to_js (m : HealthMetric) : jsval :=
  JObj ([("id", JNum (id m));
         ("metric_type", JStr (metric_type m));
         ("value", JNum (value m))]
        ++ match unit m with
           | UnitAbsent => []
           | UnitNull => [("unit", JNull)]
           | UnitText u => [("unit", JStr u)]
           end
        ++ [("recorded_at", JStr (recorded_at m))]).

End Metric.

(** The identity of a reading held in the view or the cache: [metric.id]. *)
Definition metric_id (m : jsval) : jsval := get_opt m "id".

(** ** services/metricsStore.ts *)

Module MetricsStore.

(** [type MetricsDb]: the two implementations of the interface. *)
Inductive MetricsDb : Type :=
  | SqliteDb    (* createSqliteDb(sqliteModule) *)
  | MemoryDb.   (* createMemoryDb() *)

(** The columns of table [metrics] other than the key
    ([id INTEGER PRIMARY KEY NOT NULL, metric_type TEXT, value REAL,
    unit TEXT, recorded_at TEXT]), holding the values as they were bound. *)
Record Row : Type := mkRow {
  row_metric_type : jsval;
  row_value : jsval;
  row_unit : jsval;
  row_recorded_at : jsval
}.

(** The module's state together with what it reaches on the device:
    - [sqlite_available]: whether [require('react-native-sqlite-storage')]
      and the set-up after it run without throwing (fixed by the platform,
      never written by the code);
    - [db]: [let db: MetricsDb | null = null];
    - [memoryCache]: [const memoryCache: HealthMetric[] = []];
    - [metrics_table]: table [metrics] of [metrics.db], keyed by [id];
      [None] while the table has not been created. *)
Record Store : Type := mkStore {
  sqlite_available : bool;
  db : option MetricsDb;
  memoryCache : list jsval;
  metrics_table : option (gmap Z Row)
}.

Definition set_db (b : option MetricsDb) (s : Store) : Store :=
  mkStore (sqlite_available s) b (memoryCache s) (metrics_table s).
Definition set_memoryCache (c : list jsval) (s : Store) : Store :=
  mkStore (sqlite_available s) (db s) c (metrics_table s).
Definition set_metrics_table (t : option (gmap Z Row)) (s : Store) : Store :=
  mkStore (sqlite_available s) (db s) (memoryCache s) t.

(** The store of a freshly started process on a device whose database file
    does not have the table yet. *)
Definition fresh (sqlite : bool) : Store := mkStore sqlite None [] None.

(** An [async] function over the store: it ends resolved or rejected and
    leaves a store behind either way.  Each call is taken as one atomic step
    (the interleaving of two pending calls is not modelled). *)
Definition Async (A : Type) : Type := Store -> outcome A * Store.

Definition resolve {A} (a : A) : Async A := fun s => (Resolved a, s).

(** [const a = await c; k a]: a rejection of [c] skips [k]. *)
Definition await {A B} (c : Async A) (k : A -> Async B) : Async B :=
  fun s =>
    match c s with
    | (Resolved a, s') => k a s'
    | (Rejected e, s') => (Rejected e, s')
    end.

Declare Scope async_scope.
Delimit Scope async_scope with async.
Notation "x <~ c ;; k" := (await c (fun x => k))
  (at level 100, c at next level, right associativity) : async_scope.
Notation "c ;;; k" := (await c (fun _ => k))
  (at level 100, right associativity) : async_scope.
Local Open Scope async_scope.

(** *** The memory backend *)

Definition memory_init : Async () := resolve tt.

Definition memory_loadCachedMetrics (limit : Z) : Async (list jsval) :=
  fun s => (Resolved (slice0 limit (memoryCache s)), s).

(** [memoryCache.length = 0; memoryCache.push(...metrics)]. *)
Definition memory_storeMetrics (metrics : list jsval) : Async () :=
  fun s => (Resolved tt, set_memoryCache metrics s).

(** [memoryCache.unshift(metric)]. *)
Definition memory_addMetric (metric : jsval) : Async () :=
  fun s => (Resolved tt, set_memoryCache (metric :: memoryCache s) s).

(** *** The SQLite backend

    The statements are modelled for the values [HealthMetric] declares (a
    number as [id], strings or [null] in the text columns).  Binding anything
    else as the [id] is taken to fail; SQLite's type conversions are not
    modelled.  In the source every method awaits [dbPromise] and
    [db.executeSql] without a [try]: when the database cannot be opened or a
    statement fails in the engine, the method rejects.  Those faults are
    outside the model, where [dbPromise] resolves and the only failure of a
    statement is a missing table; nothing below is a statement about them. *)

(** The plugin rejects with its own error object, which is no [Error]. *)
Definition sql_error : thrown := ThrownOther.

(** The TypeError of reading a property of [null] or [undefined]; the text is
    the engine's. *)
Definition type_error : thrown := ThrownError "Cannot read property of null".

(** A bound parameter: [undefined] crosses the bridge as [null]. *)
Definition bind_param (v : jsval) : jsval := nullish_or v JNull.

(** [CREATE TABLE IF NOT EXISTS metrics (...)]. *)
Definition sql_create_table : Async () :=
  fun s =>
    match metrics_table s with
    | Some _ => (Resolved tt, s)
    | None => (Resolved tt, set_metrics_table (Some ∅) s)
    end.

(** [DELETE FROM metrics]. *)
Definition sql_delete_all : Async () :=
  fun s =>
    match metrics_table s with
    | Some _ => (Resolved tt, set_metrics_table (Some ∅) s)
    | None => (Rejected sql_error, s)
    end.

(** The last four parameters of the insert statement:
    [[metric.metric_type, metric.value, metric.unit ?? null,
    metric.recorded_at]]. *)
Definition row_params (metric : jsval) : Row :=
  mkRow (bind_param (get_opt metric "metric_type"))
        (bind_param (get_opt metric "value"))
        (bind_param (nullish_or (get_opt metric "unit") JNull))
        (bind_param (get_opt metric "recorded_at")).

(** [INSERT OR REPLACE INTO metrics (id, metric_type, value, unit,
    recorded_at) VALUES (?, ?, ?, ?, ?)] with [metric.id] as the first
    parameter: a row with the same [id] is replaced. *)
Definition sql_insert_or_replace (metric : jsval) : Async () :=
  fun s =>
    match get metric "id" with
    | None => (Rejected type_error, s)
    | Some id_param =>
        match metrics_table s, id_param with
        | Some t, JNum k =>
            (Resolved tt, set_metrics_table (Some (<[k := row_params metric]> t)) s)
        | _, _ => (Rejected sql_error, s)
        end
    end.

(** The order of [ORDER BY recorded_at DESC] on a text column: [NULL] sorts
    below every text, texts compare byte by byte; [text_leb a b] is
    [a <= b]. *)
Definition text_leb (a b : jsval) : bool :=
  match a, b with
  | JStr x, JStr y => String.leb x y
  | JStr _, _ => false
  | _, _ => true
  end.

Definition recorded_at_desc (r1 r2 : Z * Row) : Prop :=
  text_leb (row_recorded_at r2.2) (row_recorded_at r1.2) = true.

#[local] Instance recorded_at_desc_dec r1 r2 : Decision (recorded_at_desc r1 r2).
Proof. unfold recorded_at_desc. apply _. Defined.

(** [rows.item(index)]: a row as the object of its five columns. *)
Definition row_object (r : Z * Row) : jsval :=
  JObj [("id", JNum r.1);
        ("metric_type", row_metric_type r.2);
        ("value", row_value r.2);
        ("unit", row_unit r.2);
        ("recorded_at", row_recorded_at r.2)].

(** [LIMIT ?]: a negative limit is no limit. *)
Definition sql_limit {A} (limit : Z) (l : list A) : list A :=
  if limit <? 0 then l else take (Z.to_nat limit) l.

(** [SELECT id, metric_type, value, unit, recorded_at FROM metrics
    ORDER BY recorded_at DESC LIMIT ?]; SQL leaves the order of rows with
    equal [recorded_at] open, the model takes the one its sort gives. *)
Definition sql_select_latest (limit : Z) : Async (list (Z * Row)) :=
  fun s =>
    match metrics_table s with
    | Some t => (Resolved (sql_limit limit (merge_sort recorded_at_desc (map_to_list t))), s)
    | None => (Rejected sql_error, s)
    end.

Definition sqlite_init : Async () := sql_create_table.

Definition sqlite_loadCachedMetrics (limit : Z) : Async (list jsval) :=
  rows <~ sql_select_latest limit ;;
  resolve (map row_object rows).

(** [for (const metric of metrics) await db.executeSql('INSERT OR REPLACE ...')]. *)
Fixpoint sqlite_insert_each (metrics : list jsval) : Async () :=
  match metrics with
  | [] => resolve tt
  | metric :: rest => sql_insert_or_replace metric ;;; sqlite_insert_each rest
  end.

Definition sqlite_storeMetrics (metrics : list jsval) : Async () :=
  sql_delete_all ;;; sqlite_insert_each metrics.

Definition sqlite_addMetric (metric : jsval) : Async () :=
  sql_insert_or_replace metric.

(** *** Dispatch on the handle: [db.init()], [db.loadCachedMetrics(limit)], ... *)

Definition db_init (b : MetricsDb) : Async () :=
  match b with SqliteDb => sqlite_init | MemoryDb => memory_init end.

Definition db_loadCachedMetrics (b : MetricsDb) (limit : Z) : Async (list jsval) :=
  match b with
  | SqliteDb => sqlite_loadCachedMetrics limit
  | MemoryDb => memory_loadCachedMetrics limit
  end.

Definition db_storeMetrics (b : MetricsDb) (metrics : list jsval) : Async () :=
  match b with
  | SqliteDb => sqlite_storeMetrics metrics
  | MemoryDb => memory_storeMetrics metrics
  end.

Definition db_addMetric (b : MetricsDb) (metric : jsval) : Async () :=
  match b with
  | SqliteDb => sqlite_addMetric metric
  | MemoryDb => memory_addMetric metric
  end.

(** *** The exported functions *)

(** [export async function initMetricsDb()]: with a handle, only its [init]
    runs; without one, the [try] picks SQLite and the [catch] the memory
    cache, and [init] runs on the handle picked. *)
Definition initMetricsDb : Async () :=
  fun s =>
    match db s with
    | Some b => db_init b s
    | None =>
        let b := if sqlite_available s then SqliteDb else MemoryDb in
        db_init b (set_db (Some b) s)
    end.

(** [if (!db) { await initMetricsDb(); }]. *)
Definition ensure_db : Async () :=
  fun s =>
    match db s with
    | None => initMetricsDb s
    | Some _ => (Resolved tt, s)
    end.

(** The default of [limit = 20]. *)
Definition default_limit (limit : option Z) : Z :=
  match limit with Some n => n | None => 20 end.

(** [db?.loadCachedMetrics(limit) ?? []] on a given handle. *)
Definition loadCachedMetrics_on (handle : option MetricsDb) (limit : Z)
  : Async (list jsval) :=
  match handle with
  | Some b => db_loadCachedMetrics b limit
  | None => resolve []
  end.

(** [await db?.storeMetrics(metrics)] on a given handle. *)
Definition storeMetrics_on (handle : option MetricsDb) (metrics : list jsval)
  : Async () :=
  match handle with
  | Some b => db_storeMetrics b metrics
  | None => resolve tt
  end.

(** [await db?.addMetric(metric)] on a given handle. *)
Definition addMetric_on (handle : option MetricsDb) (metric : jsval) : Async () :=
  match handle with
  | Some b => db_addMetric b metric
  | None => resolve tt
  end.

(** [export async function loadCachedMetrics(limit = 20)]. *)
Definition loadCachedMetrics (limit : option Z) : Async (list jsval) :=
  ensure_db ;;; fun s => loadCachedMetrics_on (db s) (default_limit limit) s.

(** [export async function storeMetrics(metrics)]. *)
Definition storeMetrics (metrics : list jsval) : Async () :=
  ensure_db ;;; fun s => storeMetrics_on (db s) metrics s.

(** [export async function addMetric(metric)]. *)
Definition addMetric (metric : jsval) : Async () :=
  ensure_db ;;; fun s => addMetric_on (db s) metric s.

(** A call of one of the four exported functions, and the store it leaves. *)
Inductive Call : Type :=
  | CallInit
  | CallLoad (limit : option Z)
  | CallStore (metrics : list jsval)
  | CallAdd (metric : jsval).

Definition call (c : Call) (s : Store) : Store :=
  match c with
  | CallInit => (initMetricsDb s).2
  | CallLoad limit => (loadCachedMetrics limit s).2
  | CallStore metrics => (storeMetrics metrics s).2
  | CallAdd metric => (addMetric metric s).2
  end.

Definition calls (cs : list Call) (s : Store) : Store :=
  fold_left (fun s c => call c s) cs s.

(** The backend a store works with: the handle it has, or the one the first
    call will pick. *)
Definition backend (s : Store) : MetricsDb :=
  match db s with
  | Some b => b
  | None => if sqlite_available s then SqliteDb else MemoryDb
  end.

(** A reading whose [id] is a number, as [HealthMetric] declares. *)
Definition numeric_id (metric : jsval) : Prop :=
  exists k, get metric "id" = Some (JNum k).

(** A SQLite handle is only ever installed together with [init], which
    creates the table: the stores the exported functions produce satisfy
    [ready]. *)
Definition ready (s : Store) : Prop :=
  db s = Some SqliteDb -> is_Some (metrics_table s).

End MetricsStore.

(** ** services/api.ts and the error handling of screens/JoinRoomScreen.tsx *)

Module Api.

(** A request as the code builds it: the path after [API_BASE_URL], the
    entries of its [URLSearchParams] and the [Authorization] header. *)
Record Request : Type := mkRequest {
  req_path : string;
  req_params : list (string * string);
  req_authorization : string
}.

(** What the code reads of a response: [response.ok] and the body
    ([await response.text()]). *)
Record Response : Type := mkResponse {
  ok : bool;
  body : string
}.

(** How one [fetch] ends: the promise rejects (no reply) or a response
    arrives. *)
Inductive fetch_result : Type :=
  | FetchFailed (e : thrown)
  | FetchReplied (r : Response).

(** The network: what each request is answered with.  A computation over the
    network carries the log of the requests sent so far. *)
Definition Server : Type := Request -> fetch_result.
Definition Net (A : Type) : Type := list Request -> A * list Request.

(** [await fetch(...)]: one request goes out. *)
Definition fetch (server : Server) (req : Request) : Net fetch_result :=
  fun log => (server req, (log ++ [req])%list).

(** [a || b] on strings. *)
Definition or_else (a b : string) : string :=
  if String.eqb a "" then b else a.

(** The SyntaxError of [JSON.parse] and [response.json()]; the text is the
    engine's. *)
Definition syntax_error : thrown := ThrownError "JSON Parse error".

Section WithJSON.

(** [JSON.parse], a built-in of the platform: [None] when it throws. *)
Variable JSON_parse : string -> option jsval.

(** [export async function fetchLatestMetrics(accessToken, limit = 20,
    metricType?)]. *)
Definition fetchLatestMetrics (server : Server) (accessToken : string)
    (limit : option Z) (metricType : option string) : Net (outcome jsval) :=
  fun log =>
    let limit := match limit with Some n => n | None => 20 end in
    let params := [("limit", pretty limit)] in
    let params :=
      match metricType with
      | Some t => if String.eqb t "" then params else (params ++ [("metric_type", t)])%list
      | None => params
      end in
    let req := mkRequest "/v1/metrics/latest" params ("Bearer " ++ accessToken) in
    match fetch server req log with
    | (FetchFailed e, log') => (Rejected e, log')
    | (FetchReplied response, log') =>
        if negb (ok response) then
          let detail := body response in
          (Rejected (ThrownError (or_else detail "Failed to fetch metrics")), log')
        else
          match JSON_parse (body response) with
          | Some v => (Resolved v, log')
          | None => (Rejected syntax_error, log')
          end
    end.

(** The value [requestToken] (JoinRoomScreen.tsx) passes to [new Error] when
    the response is not ok:
    [[
      let message = rawMessage || 'Unable to join the room.';
      try {
        const data = JSON.parse(rawMessage);
        if (typeof data?.detail === 'string') message = data.detail;
        else if (Array.isArray(data?.detail) && data.detail.length > 0)
          message = data.detail[0]?.msg ?? message;
      } catch { }
    ]] *)
Definition requestToken_error_message (rawMessage : string) : jsval :=
  let message := JStr (or_else rawMessage "Unable to join the room.") in
  match JSON_parse rawMessage with
  | None => message
  | Some data =>
      match get_opt data "detail" with
      | JStr detail => JStr detail
      | JArr (first :: _) => nullish_or (get_opt first "msg") message
      | _ => message
      end
  end.

End WithJSON.

End Api.

(** ** screens/LiveSessionScreen.tsx *)

Module LiveSession.

Import MetricsStore.

(** The union type of [connectionState]. *)
Inductive ConnectionState : Type :=
  | connecting
  | connected
  | disconnected
  | error.

(** [MediaDeviceFailure] of livekit-client. *)
Inductive MediaDeviceFailure : Type :=
  | PermissionDenied
  | NotFound
  | DeviceInUse
  | Other.

(** The [useState] cells of [LiveSessionScreen]; [string | null] is
    [option string]. *)
Record Screen : Type := mkScreen {
  connectionState : ConnectionState;
  errorMessage : option string;
  mediaErrorMessage : option string;
  metrics : list jsval;
  metricsError : option string;
  metricsLoading : bool;
  simulateParticipantsEnabled : bool;
  connectKey : Z
}.

(** The initial values of the cells. *)
Definition initial : Screen :=
  mkScreen connecting None None [] None false false 0.

Definition setConnectionState (c : ConnectionState) (s : Screen) : Screen :=
  mkScreen c (errorMessage s) (mediaErrorMessage s) (metrics s) (metricsError s)
           (metricsLoading s) (simulateParticipantsEnabled s) (connectKey s).
Definition setErrorMessage (m : option string) (s : Screen) : Screen :=
  mkScreen (connectionState s) m (mediaErrorMessage s) (metrics s) (metricsError s)
           (metricsLoading s) (simulateParticipantsEnabled s) (connectKey s).
Definition setMediaErrorMessage (m : option string) (s : Screen) : Screen :=
  mkScreen (connectionState s) (errorMessage s) m (metrics s) (metricsError s)
           (metricsLoading s) (simulateParticipantsEnabled s) (connectKey s).
Definition setMetrics (v : list jsval) (s : Screen) : Screen :=
  mkScreen (connectionState s) (errorMessage s) (mediaErrorMessage s) v (metricsError s)
           (metricsLoading s) (simulateParticipantsEnabled s) (connectKey s).
Definition setMetricsError (m : option string) (s : Screen) : Screen :=
  mkScreen (connectionState s) (errorMessage s) (mediaErrorMessage s) (metrics s) m
           (metricsLoading s) (simulateParticipantsEnabled s) (connectKey s).
Definition setMetricsLoading (b : bool) (s : Screen) : Screen :=
  mkScreen (connectionState s) (errorMessage s) (mediaErrorMessage s) (metrics s)
           (metricsError s) b (simulateParticipantsEnabled s) (connectKey s).
Definition setConnectKey (k : Z) (s : Screen) : Screen :=
  mkScreen (connectionState s) (errorMessage s) (mediaErrorMessage s) (metrics s)
           (metricsError s) (metricsLoading s) (simulateParticipantsEnabled s) k.

(** The screen together with the metric store its handlers write to. *)
Record App : Type := mkApp {
  screen : Screen;
  store : Store
}.

Definition on_screen (f : Screen -> Screen) (a : App) : App :=
  mkApp (f (screen a)) (store a).

(** A call of a store function whose promise is dropped
    ([storeMetrics(snapshot);], [addMetric(metric);]): its effect on the store
    stays, its outcome is lost. *)
Definition fire_and_forget {A} (c : Async A) (a : App) : App :=
  mkApp (screen a) (c (store a)).2.

(** [!accessToken] fails for a non-empty string. *)
Definition has_token (accessToken : option string) : bool :=
  match accessToken with
  | Some t => negb (String.eqb t "")
  | None => false
  end.

(** *** [loadMetrics] *)

(** [err instanceof Error ? err.message : 'Unable to load metrics.']. *)
Definition error_message_of (err : thrown) : string :=
  match err with
  | ThrownError message => message
  | ThrownOther => "Unable to load metrics."
  end.

(** The [catch] block of [loadMetrics].  [metrics_length] is the
    [metrics.length] the callback closed over. *)
Definition loadMetrics_catch (metrics_length : nat) (err : thrown) (a : App)
  : outcome () * App :=
  let a := on_screen (setMetricsError (Some (error_message_of err))) a in
  if Nat.eqb metrics_length 0 then
    match loadCachedMetrics (Some 20) (store a) with
    | (Resolved cached, st) =>
        let a := mkApp (screen a) st in
        if Nat.ltb 0 (length cached)
        then (Resolved tt, on_screen (setMetrics cached) a)
        else (Resolved tt, a)
    | (Rejected e, st) => (Rejected e, mkApp (screen a) st)
    end
  else (Resolved tt, a).

(** [const loadMetrics = useCallback(async () => {...}, [accessToken,
    metrics.length])].  [fetched] is how
    [await fetchLatestMetrics(accessToken, 20)] ended, at its declared type
    [HealthMetric[]]. *)
Definition loadMetrics (metrics_length : nat) (accessToken : option string)
    (fetched : outcome (list jsval)) (a : App) : outcome () * App :=
  if negb (has_token accessToken) then (Resolved tt, a)
  else
    let a := on_screen (setMetricsLoading true) a in
    let a := on_screen (setMetricsError None) a in
    let (result, a) :=
      match fetched with
      | Resolved latest =>
          let a := on_screen (setMetrics latest) a in
          match storeMetrics latest (store a) with
          | (Resolved _, st) => (Resolved tt, mkApp (screen a) st)
          | (Rejected err, st) => loadMetrics_catch metrics_length err (mkApp (screen a) st)
          end
      | Rejected err => loadMetrics_catch metrics_length err a
      end in
    (result, on_screen (setMetricsLoading false) a).

(** The call in which nothing else writes the view between the render that
    built the callback and the end of the call: the length the callback
    closed over is then the length of the view it runs on.  The call with
    channel messages handled while the fetch is pending is
    [Refresh.loadMetrics_interleaved]. *)
Definition refresh (accessToken : option string) (fetched : outcome (list jsval))
    (a : App) : outcome () * App :=
  loadMetrics (length (metrics (screen a))) accessToken fetched a.

(** The reply of [fetchLatestMetrics] taken at [HealthMetric[]]; a resolved
    value that is no array is outside the declared type. *)
Definition as_metrics (o : outcome jsval) : option (outcome (list jsval)) :=
  match o with
  | Resolved (JArr items) => Some (Resolved items)
  | Resolved _ => None
  | Rejected e => Some (Rejected e)
  end.

(** *** [socket.onmessage] *)

(** The body of the [try] after [JSON.parse]; [None] is a throw, which the
    [catch] swallows.  The only throwing step is the first read
    [payload.type], before any write. *)
Definition onmessage_payload (payload : jsval) (a : App) : option App :=
  match get payload "type" with
  | None => None
  | Some type =>
      match strict_eq_str type "snapshot", get_opt payload "data" with
      | true, JArr snapshot =>
          let a := on_screen (setMetrics snapshot) a in
          Some (fire_and_forget (storeMetrics snapshot) a)
      | _, _ =>
          if truthy (get_opt payload "metric_type") then
            let metric := payload in
            let a := on_screen (fun s => setMetrics (slice0 50 (metric :: metrics s)) s) a in
            Some (fire_and_forget (addMetric metric) a)
          else Some a
      end
  end.

(** The handler after [JSON.parse(event.data)]: [parsed] is [None] when the
    parse throws. *)
Definition onmessage_parsed (parsed : option jsval) (a : App) : App :=
  match parsed with
  | None => a
  | Some payload =>
      match onmessage_payload payload a with
      | Some a' => a'
      | None => a
      end
  end.

(** [socket.onmessage = (event) => {...}]. *)
Definition onmessage (JSON_parse : string -> option jsval) (event_data : string)
    (a : App) : App :=
  onmessage_parsed (JSON_parse event_data) a.

(** *** The session callbacks *)

Definition retryConnect (s : Screen) : Screen :=
  let s := setErrorMessage None s in
  let s := setMediaErrorMessage None s in
  let s := setConnectionState connecting s in
  setConnectKey (connectKey s + 1) s.

Definition onConnected (s : Screen) : Screen :=
  let s := setConnectionState connected s in
  setErrorMessage None s.

Definition onDisconnected (s : Screen) : Screen :=
  let s := setConnectionState disconnected s in
  setErrorMessage (Some "Disconnected before media negotiation completed.") s.

(** [onError: (error) => ...], with [error.message]. *)
Definition onError (message : string) (s : Screen) : Screen :=
  let s := setConnectionState error s in
  setErrorMessage (Some message) s.

Definition permission_denied_text : string :=
  "Camera or microphone permission denied. Enable access in Settings.".
Definition failed_to_start_text : string :=
  "Camera/microphone failed to start. Try reconnecting.".

(** [onMediaDeviceFailure: (failure) => ...]; [None] is an absent
    [failure]. *)
Definition onMediaDeviceFailure (failure : option MediaDeviceFailure) (s : Screen)
  : Screen :=
  match failure with
  | None => s
  | Some f =>
      setMediaErrorMessage
        (Some match f with
              | PermissionDenied => permission_denied_text
              | _ => failed_to_start_text
              end) s
  end.

(** The Retry button, the only caller of [retryConnect], is rendered under
    [connectionState === 'error' && errorMessage] (and only once the room
    object exists, which the session state does not record). *)
Definition retry_rendered (s : Screen) : bool :=
  match connectionState s, errorMessage s with
  | error, Some m => negb (String.eqb m "")
  | _, _ => false
  end.

(** What reaches the session state: the four LiveKit callbacks, a press on
    Retry, and [<MediaDiagnostics onMessage={setMediaErrorMessage} />]. *)
Inductive Signal : Type :=
  | ConnectSuccess
  | Disconnect
  | TransportError (message : string)
  | MediaFailure (failure : option MediaDeviceFailure)
  | PressRetry
  | DiagnosticsMessage (message : option string).

Definition step (s : Screen) (sig : Signal) : Screen :=
  match sig with
  | ConnectSuccess => onConnected s
  | Disconnect => onDisconnected s
  | TransportError message => onError message s
  | MediaFailure failure => onMediaDeviceFailure failure s
  | PressRetry => if retry_rendered s then retryConnect s else s
  | DiagnosticsMessage message => setMediaErrorMessage message s
  end.

Definition run (s : Screen) (sigs : list Signal) : Screen :=
  fold_left step sigs s.

End LiveSession.

(** ** The message shapes of the live channel and the session relation of
    the specification *)

Module Channel.

Import MetricsStore LiveSession.

(** The first test of the handler:
    [payload.type === 'snapshot' && Array.isArray(payload.data)]. *)
Definition is_snapshot (payload : jsval) : bool :=
  match get payload "type" with
  | Some type => strict_eq_str type "snapshot" && isArray (get_opt payload "data")
  | None => false
  end.

(** [payload.data] of a snapshot message. *)
Definition snapshot_data (payload : jsval) : list jsval :=
  match get_opt payload "data" with
  | JArr items => items
  | _ => []
  end.

(** The second test, reached when the first fails: [payload?.metric_type]. *)
Definition is_incremental (payload : jsval) : bool :=
  negb (is_snapshot payload) && truthy (get_opt payload "metric_type").

(** Whether an object has a property [k]. *)
Definition has_field (k : string) (payload : jsval) : bool :=
  match payload with
  | JObj fields => existsb (fun kv => String.eqb k kv.1) fields
  | _ => false
  end.

(** The messages delivered one after the other, each already parsed. *)
Definition deliver (payloads : list jsval) (a : App) : App :=
  fold_left (fun a payload => onmessage_parsed (Some payload) a) payloads a.

(** The message [{"type":"snapshot","data":[...]}]. *)
Definition snapshot_message (data : list jsval) : jsval :=
  JObj [("type", JStr "snapshot"); ("data", JArr data)].

(** The identities of the entries of a view. *)
Definition identities (view : list jsval) : list jsval := map metric_id view.

(** The connection state a signal leads to. *)
Definition target (s : Screen) (sig : Signal) : ConnectionState :=
  match sig with
  | ConnectSuccess => connected
  | Disconnect => disconnected
  | TransportError _ => error
  | MediaFailure _ | DiagnosticsMessage _ => connectionState s
  | PressRetry => if retry_rendered s then connecting else connectionState s
  end.

(** The transitions section 4.5 of the specification allows, on the states the
    code has ([degraded] is not one of them): no change of state,
    [connecting -> {connected, error}],
    [connected -> {disconnected, error}], and leaving [disconnected] or
    [error] to [connecting] by the operator's reconnect. *)
Definition allowed_by_spec (from : ConnectionState) (sig : Signal)
    (to : ConnectionState) : bool :=
  match from, to with
  | connecting, connecting | connected, connected
  | disconnected, disconnected | error, error => true
  | connecting, connected | connecting, error => true
  | connected, disconnected | connected, error => true
  | disconnected, connecting | error, connecting =>
      match sig with PressRetry => true | _ => false end
  | _, _ => false
  end.

End Channel.

(** ** [loadMetrics] with the channel at work *)

Module Refresh.

Import MetricsStore LiveSession Channel.

(** [loadMetrics] up to its first [await]: the two writes made before
    [await fetchLatestMetrics(accessToken, 20)]. *)
Definition loadMetrics_start (a : App) : App :=
  let a := on_screen (setMetricsLoading true) a in
  on_screen (setMetricsError None) a.

(** [loadMetrics] from the end of that [await] on: the rest of the [try],
    the [catch] and the [finally].  [metrics_length] is the [metrics.length]
    of the render whose callback this is. *)
Definition loadMetrics_settle (metrics_length : nat) (fetched : outcome (list jsval))
    (a : App) : outcome () * App :=
  let (result, a) :=
    match fetched with
    | Resolved latest =>
        let a := on_screen (setMetrics latest) a in
        match storeMetrics latest (store a) with
        | (Resolved _, st) => (Resolved tt, mkApp (screen a) st)
        | (Rejected err, st) => loadMetrics_catch metrics_length err (mkApp (screen a) st)
        end
    | Rejected err => loadMetrics_catch metrics_length err a
    end in
  (result, on_screen (setMetricsLoading false) a).

(** A call of [loadMetrics] made on the screen [a], whose callback therefore
    closed over the length of the view of [a], with the channel messages
    [arrived] handled by [socket.onmessage] while the fetch was pending. *)
Definition loadMetrics_interleaved (accessToken : option string) (arrived : list jsval)
    (fetched : outcome (list jsval)) (a : App) : outcome () * App :=
  if negb (has_token accessToken) then (Resolved tt, a)
  else
    loadMetrics_settle (length (metrics (screen a))) fetched
                       (deliver arrived (loadMetrics_start a)).

(** The sync error is rendered under [metricsError ? ... : null]. *)
Definition metricsError_rendered (s : Screen) : bool :=
  match metricsError s with
  | Some text => negb (String.eqb text "")
  | None => false
  end.

End Refresh.

(** ** Concrete readings, stores and replies used in the examples *)

Module Samples.

Import MetricsStore LiveSession Channel.

Definition reading (i v : Z) (at_ : string) : jsval :=
  Metric.to_js (Metric.mkHealthMetric i "heart_rate" v Metric.UnitAbsent at_).

(** The screen as first rendered, over the store of a fresh process. *)
Definition app0 (sqlite : bool) : App := mkApp LiveSession.initial (fresh sqlite).

(** The store of a process that cached one reading in memory. *)
Definition store_after_one_add : Store :=
  calls [CallAdd (reading 1 70 "T0")] (fresh false).

(** The double quote. *)
Definition dq : string := String (Ascii.ascii_of_nat 34) EmptyString.

(** The body [{"detail":"Not authenticated"}]. *)
Definition detail_body : string :=
  "{" ++ dq ++ "detail" ++ dq ++ ":" ++ dq ++ "Not authenticated" ++ dq ++ "}".

(** A server that answers every request with status 401 and that body. *)
Definition unauthorized : Api.Server :=
  fun _ => Api.FetchReplied (Api.mkResponse false detail_body).

(** A parser that knows that one body. *)
Definition parse_detail_body (text : string) : option jsval :=
  if String.eqb text detail_body
  then Some (JObj [("detail", JStr "Not authenticated")])
  else None.

(** Fifty-one readings with the identities 1 to 51. *)
Definition fifty_one : list jsval :=
  map (fun i => reading (Z.of_nat i) 60 "T0") (seq 1 51).

End Samples.

(** ** screens/GlucoseScreen.tsx and components/GlucoseCard.tsx

    Glucose values are integers there: the current value starts at 112 and
    every later one comes out of [Math.round]. *)

Module Glucose.

(** [type GlucoseReading]; the timestamp is the [Date]'s milliseconds. *)
Record GlucoseReading : Type := mkGlucoseReading {
  timestamp : Z;
  value : Z
}.

(** [getStatusText] of GlucoseScreen. *)
Definition getStatusText (value : Z) : string :=
  if value <? 70 then "Low"
  else if value <? 100 then "Normal"
  else if value <? 140 then "Elevated"
  else if value <? 180 then "High"
  else "Very High".

(** [getStatusColor] of GlucoseCard: red, orange, green. *)
Definition getStatusColor (current : Z) : string :=
  if current <? 70 then "#EB5757"
  else if current >? 180 then "#F2994A"
  else "#27AE60".

(** The test of [stats]: [v >= 70 && v <= 180]. *)
Definition in_range (v : Z) : bool := (v >=? 70) && (v <=? 180).

(** [values.filter((v) => v >= 70 && v <= 180).length]. *)
Definition inRangeCount (values : list Z) : nat :=
  length (List.filter in_range values).

(** [l.slice(-n)] for a positive [n]: the last [n] entries. *)
Definition slice_last {A} (n : nat) (l : list A) : list A :=
  drop (length l - n) l.

(** The history update of the interval:
    [[...prev.slice(-96), newReading]] with
    [newReading = { timestamp: new Date(), value: currentGlucose }]. *)
Definition push_reading (now currentGlucose : Z) (prev : list GlucoseReading)
  : list GlucoseReading :=
  (slice_last 96 prev ++ [mkGlucoseReading now currentGlucose])%list.

(** [sparkData]: [glucoseHistory.slice(-24).map((r) => r.value)]. *)
Definition sparkData (glucoseHistory : list GlucoseReading) : list Z :=
  map value (slice_last 24 glucoseHistory).

(** The readings a run of ticks records, each tick with its time and the
    current value it closed over. *)
Definition readings_of (ticks : list (Z * Z)) : list GlucoseReading :=
  map (fun tick => mkGlucoseReading tick.1 tick.2) ticks.

(** The history after a run of ticks. *)
Definition record_all (ticks : list (Z * Z)) (history : list GlucoseReading)
  : list GlucoseReading :=
  fold_left (fun h tick => push_reading tick.1 tick.2 h) ticks history.

End Glucose.

(** ** [MediaDiagnostics] of screens/LiveSessionScreen.tsx *)

Module Diagnostics.

Import LiveSession.

(** [mediaFailureMessage]; [failure] is what
    [MediaDeviceFailure.getFailure(lastCameraError ?? lastMicrophoneError)]
    gives, [None] when it gives nothing. *)
Definition mediaFailureMessage (failure : option MediaDeviceFailure) : option string :=
  match failure with
  | None => None
  | Some PermissionDenied =>
      Some "Camera or microphone permission denied. Enable access in Settings."
  | Some NotFound =>
      Some "No camera/microphone detected. Use a physical device if on simulator."
  | Some DeviceInUse =>
      Some "Camera/microphone is already in use by another app."
  | Some Other =>
      Some "Camera/microphone failed to start. Try reconnecting."
  end.

Definition no_frames_text : string :=
  "Camera is enabled but no video frames are available. On the iOS simulator this is expected; test on a physical device and verify camera permissions.".

(** The cell [cameraStatusMessage] and whether the 2000 ms timer of the
    effect is armed. *)
Record Camera : Type := mkCamera {
  cameraStatusMessage : option string;
  timer_armed : bool
}.

Definition camera0 : Camera := mkCamera None false.

(** What happens to the component: the effect runs again because
    [isCameraEnabled] or the camera's media stream track changed ([live] is
    [mediaStreamTrack?.readyState === 'live']), or the armed timer fires. *)
Inductive Event : Type :=
  | EffectRuns (isCameraEnabled live : bool)
  | TimerFires.

(** The effect's cleanup ([clearTimeout]) comes first, then its body. *)
Definition on_event (c : Camera) (e : Event) : Camera :=
  match e with
  | EffectRuns isCameraEnabled live =>
      if negb isCameraEnabled then mkCamera None false
      else if live then mkCamera None false
      else mkCamera (cameraStatusMessage c) true
  | TimerFires =>
      if timer_armed c then mkCamera (Some no_frames_text) false else c
  end.

Definition after (events : list Event) : Camera := fold_left on_event events camera0.

(** [onMessage(mediaFailureMessage ?? cameraStatusMessage)]. *)
Definition reported (failure : option MediaDeviceFailure) (c : Camera) : option string :=
  match mediaFailureMessage failure with
  | Some text => Some text
  | None => cameraStatusMessage c
  end.

(** The arguments of the last run of the effect. *)
Fixpoint last_effect (events : list Event) : option (bool * bool) :=
  match events with
  | [] => None
  | e :: rest =>
      match last_effect rest, e with
      | Some seen, _ => Some seen
      | None, EffectRuns isCameraEnabled live => Some (isCameraEnabled, live)
      | None, TimerFires => None
      end
  end.

(** The warning card is rendered under [mediaErrorMessage ? ... : null]. *)
Definition warning_rendered (s : Screen) : bool :=
  match mediaErrorMessage s with
  | Some text => negb (String.eqb text "")
  | None => false
  end.

End Diagnostics.

(** ** services/api.ts: the other GET calls, and [loadMetrics] over the
    network *)

Module ApiMore.

Import Api.

Section WithJSON.

Variable JSON_parse : string -> option jsval.

(** The body shared by [fetchEhrAuthUrl], [fetchEhrConnection] and
    [fetchEhrVitals]: a GET of [path] with the bearer header; a reply that is
    not ok throws [new Error(detail || generic)], an ok one is returned as
    [response.json()]. *)
Definition get_json (path generic : string) (server : Server) (accessToken : string)
  : Net (outcome jsval) :=
  fun log =>
    let req := mkRequest path [] ("Bearer " ++ accessToken) in
    match fetch server req log with
    | (FetchFailed e, log') => (Rejected e, log')
    | (FetchReplied response, log') =>
        if negb (ok response) then
          let detail := body response in
          (Rejected (ThrownError (or_else detail generic)), log')
        else
          match JSON_parse (body response) with
          | Some v => (Resolved v, log')
          | None => (Rejected syntax_error, log')
          end
    end.

Definition fetchEhrAuthUrl : Server -> string -> Net (outcome jsval) :=
  get_json "/v1/ehr/auth-url" "Failed to start EHR connection".

Definition fetchEhrConnection : Server -> string -> Net (outcome jsval) :=
  get_json "/v1/ehr/connection" "Failed to fetch EHR status".

Definition fetchEhrVitals : Server -> string -> Net (outcome jsval) :=
  get_json "/v1/ehr/vitals" "Failed to fetch vitals".

(** [loadMetrics] of LiveSessionScreen with its call
    [fetchLatestMetrics(accessToken, 20)] made over the network.  Without a
    token nothing is sent.  [None]: the server answered ok with JSON that is
    no array, which [HealthMetric[]] excludes. *)
Definition loadMetrics_online (server : Server) (metrics_length : nat)
    (accessToken : option string) (a : LiveSession.App)
  : Net (option (outcome () * LiveSession.App)) :=
  fun log =>
    match accessToken with
    | Some token =>
        if LiveSession.has_token accessToken then
          let (fetched, log') :=
            fetchLatestMetrics JSON_parse server token (Some 20) None log in
          match LiveSession.as_metrics fetched with
          | Some fetched =>
              (Some (LiveSession.loadMetrics metrics_length accessToken fetched a), log')
          | None => (None, log')
          end
        else (Some (Resolved tt, a), log)
    | None => (Some (Resolved tt, a), log)
    end.

End WithJSON.

End ApiMore.

(** ** screens/JoinRoomScreen.tsx *)

Module JoinRoom.

Section WithPlatform.

(** Built-ins of the platform: [JSON.parse] ([None] when it throws),
    [String.prototype.trim], and the conversion to a string that
    [new Error(message)] applies to a [message] that is no string. *)
Variable JSON_parse : string -> option jsval.
Variable trim : string -> string.
Variable String_of : jsval -> string.

(** The [useState] cells of [JoinRoomScreen]. *)
Record Screen : Type := mkScreen {
  roomName : string;
  participantName : string;
  isLoading : bool;
  error : option string
}.

Definition initial : Screen := mkScreen "thrive-ai" "mobile-user" false None.

(** [roomName.trim().length > 0 && !isLoading]. *)
Definition canJoin (s : Screen) : bool :=
  negb (Nat.eqb (String.length (trim (roomName s))) 0) && negb (isLoading s).

(** The POST to [/v1/livekit/room]: the two names, which the body carries at
    top level and again under [payload], and the [Authorization] header. *)
Record RoomRequest : Type := mkRoomRequest {
  room_name : string;
  participant_name : string;
  authorization : string
}.

(** The parameters of [navigation.navigate('LiveSession', ...)]. *)
Record Route : Type := mkRoute {
  route_token : jsval;
  route_url : jsval;
  route_roomName : string;
  route_participantName : string
}.

(** The [message] of [new Error(v)] for a value that is not nullish. *)
Definition message_text (v : jsval) : string :=
  match v with
  | JStr s => s
  | _ => String_of v
  end.

(** The [try] block of [requestToken]: the thrown value or the route. *)
Definition join_attempt (reply : Api.fetch_result) (room participant : string)
  : thrown + Route :=
  match reply with
  | Api.FetchFailed e => inl e
  | Api.FetchReplied response =>
      if negb (Api.ok response) then
        inl (ThrownError
               (message_text
                  (Api.requestToken_error_message JSON_parse (Api.body response))))
      else
        match JSON_parse (Api.body response) with
        | None => inl Api.syntax_error
        | Some data =>
            if negb (truthy (get_opt data "token")) || negb (truthy (get_opt data "url"))
            then inl (ThrownError "Missing LiveKit connection details.")
            else inr (mkRoute (get_opt data "token") (get_opt data "url")
                              room participant)
        end
  end.

(** [const requestToken = async () => {...}]: the screen it leaves, the
    requests it sent and the navigation it made. *)
Definition requestToken (server : RoomRequest -> Api.fetch_result)
    (accessToken : option string) (s : Screen)
  : Screen * list RoomRequest * option Route :=
  match accessToken with
  | Some token =>
      if negb (LiveSession.has_token accessToken) || negb (canJoin s)
      then (s, [], None)
      else
        let s1 := mkScreen (roomName s) (participantName s) true None in
        let normalizedRoomName := trim (roomName s) in
        let normalizedParticipant :=
          Api.or_else (trim (participantName s)) "mobile-user" in
        let req := mkRoomRequest normalizedRoomName normalizedParticipant
                                 ("Bearer " ++ token) in
        match join_attempt (server req) normalizedRoomName normalizedParticipant with
        | inr route =>
            (mkScreen (roomName s1) (participantName s1) false (error s1),
             [req], Some route)
        | inl err =>
            let message :=
              match err with
              | ThrownError message => message
              | ThrownOther => "Unable to join the room."
              end in
            (mkScreen (roomName s1) (participantName s1) false (Some message),
             [req], None)
        end
  | None => (s, [], None)
  end.

End WithPlatform.

End JoinRoom.

(** ** auth/AuthContext.tsx *)

Module Auth.

(** The cells of [AuthProvider] and the ref [loginInFlight]. *)
Record AuthState : Type := mkAuthState {
  accessToken : option string;
  userProfile : option jsval;
  isLoading : bool;
  error : option string;
  loginInFlight : bool
}.

Definition initial : AuthState := mkAuthState None None false None false.

(** What a call of the Auth0 client throws: an [Error] with its message, or
    another value with what [String(error)] makes of it. *)
Inductive raised : Type :=
  | RaisedError (message : string)
  | RaisedValue (text : string).

(** [error instanceof Error ? error.message : String(error)]. *)
Definition message_of (r : raised) : string :=
  match r with
  | RaisedError message => message
  | RaisedValue text => text
  end.

(** The calls made on the Auth0 client. *)
Inductive Auth0Call : Type :=
  | Authorize
  | UserInfo (token : string)
  | ClearSession.

Section WithPlatform.

(** [message.toLowerCase().includes('active transaction')]. *)
Variable mentions_active_transaction : string -> bool.

(** The start of [login], up to the first [await]: [None] when the guard
    [loginInFlight.current || isLoading] returns at once. *)
Definition login_start (s : AuthState) : option AuthState :=
  if loginInFlight s || isLoading s then None
  else Some (mkAuthState (accessToken s) (userProfile s) true None true).

(** The [catch] block: the message is recorded, and a message that mentions
    an active transaction makes the code clear the session (errors of that
    call are ignored). *)
Definition login_catch (r : raised) (s : AuthState) : AuthState * list Auth0Call :=
  let message := message_of r in
  (mkAuthState (accessToken s) (userProfile s) (isLoading s) (Some message)
               (loginInFlight s),
   if mentions_active_transaction message then [ClearSession] else []).

(** The rest of [login]: [authorized] is how [auth0.webAuth.authorize] ended
    (with [credentials.accessToken ?? null]), [profile] how
    [auth0.auth.userInfo] ended. *)
Definition login_finish (authorized : raised + option string) (profile : raised + jsval)
    (s : AuthState) : AuthState * list Auth0Call :=
  let (s, calls) :=
    match authorized with
    | inl r =>
        let (s, calls) := login_catch r s in (s, Authorize :: calls)
    | inr token =>
        let s := mkAuthState token (userProfile s) (isLoading s) (error s)
                             (loginInFlight s) in
        let sent := UserInfo (match token with Some t => t | None => "" end) in
        match profile with
        | inr p =>
            (mkAuthState (accessToken s) (Some p) (isLoading s) (error s)
                         (loginInFlight s),
             [Authorize; sent])
        | inl r =>
            let (s, calls) := login_catch r s in (s, Authorize :: sent :: calls)
        end
    end in
  (mkAuthState (accessToken s) (userProfile s) false (error s) false, calls).

(** [login] from press to end, when the guard lets it through. *)
Definition login (authorized : raised + option string) (profile : raised + jsval)
    (s : AuthState) : AuthState * list Auth0Call :=
  match login_start s with
  | Some s1 => login_finish authorized profile s1
  | None => (s, [])
  end.

End WithPlatform.

(** [loginDev]. *)
Definition loginDev (s : AuthState) : AuthState :=
  mkAuthState (Some "dev")
              (Some (JObj [("name", JStr "Dev User"); ("email", JStr "dev@local")]))
              (isLoading s) None (loginInFlight s).

(** [logout]: [cleared] is [Some r] when [auth0.webAuth.clearSession]
    throws [r]; the [finally] runs either way and the throw goes on to the
    caller. *)
Definition logout (cleared : option raised) (s : AuthState) : option raised * AuthState :=
  (cleared, mkAuthState None None false (error s) (loginInFlight s)).

End Auth.

(** ** What the screens show and what the properties below speak about *)

Module Observations.

Import MetricsStore LiveSession Channel.

(** [a] is at least as recent as [b] in the order of
    [ORDER BY recorded_at DESC]. *)
Definition newer_or_equal (a b : jsval) : Prop :=
  text_leb (get_opt b "recorded_at") (get_opt a "recorded_at") = true.

(** The cells of the session, and the cells of the metrics card. *)
Definition session_cells (s : Screen)
  : ConnectionState * option string * option string * Z :=
  (connectionState s, errorMessage s, mediaErrorMessage s, connectKey s).

Definition metric_cells (s : Screen) : list jsval * option string * bool :=
  (metrics s, metricsError s, metricsLoading s).

(** A transport error that carries a message. *)
Definition has_message (sig : Signal) : bool :=
  match sig with
  | TransportError message => negb (String.eqb message "")
  | _ => false
  end.

(** How many signals of a run are transport errors with a message. *)
Fixpoint errors_with_message (sigs : list Signal) : Z :=
  match sigs with
  | [] => 0
  | sig :: rest => (if has_message sig then 1 else 0) + errors_with_message rest
  end.

(** The error message that goes with each connection state. *)
Definition message_fits_state (s : Screen) : Prop :=
  match connectionState s with
  | connecting | connected => errorMessage s = None
  | disconnected =>
      errorMessage s = Some "Disconnected before media negotiation completed."
  | error => is_Some (errorMessage s)
  end.

(** [row] holds the columns of the reading [m] as the insert statement binds
    them: [metric.metric_type], [metric.value], [metric.unit ?? null],
    [metric.recorded_at], an [undefined] crossing the bridge as [null]. *)
Definition holds_columns_of (m : jsval) (row : Row) : Prop :=
  row_metric_type row = nullish_or (get_opt m "metric_type") JNull
  /\ row_value row = nullish_or (get_opt m "value") JNull
  /\ row_unit row = nullish_or (get_opt m "unit") JNull
  /\ row_recorded_at row = nullish_or (get_opt m "recorded_at") JNull.

(** The row of a well-typed reading. *)
Definition typed_row (m : Metric.HealthMetric) : Row :=
  mkRow (JStr (Metric.metric_type m)) (JNum (Metric.value m))
        match Metric.unit m with
        | Metric.UnitText u => JStr u
        | Metric.UnitAbsent | Metric.UnitNull => JNull
        end
        (JStr (Metric.recorded_at m)).

(** A well-typed reading with its [unit] property present: an absent one is
    [null]. *)
Definition with_unit (m : Metric.HealthMetric) : Metric.HealthMetric :=
  Metric.mkHealthMetric (Metric.id m) (Metric.metric_type m) (Metric.value m)
    match Metric.unit m with
    | Metric.UnitAbsent => Metric.UnitNull
    | u => u
    end
    (Metric.recorded_at m).

(** The error line of the join screen is rendered under
    [error ? ... : null]. *)
Definition join_error_rendered (s : JoinRoom.Screen) : bool :=
  match JoinRoom.error s with
  | Some text => negb (String.eqb text "")
  | None => false
  end.



(** One when the Retry button is offered, zero otherwise. *)
Definition retry_weight (s : Screen) : Z := if retry_rendered s then 1 else 0.

(** What a GET call of the API does with each way the server can answer:
    one request is sent with the bearer token; a failed fetch and a body
    that is not JSON reject with that error; a reply that is not [ok]
    rejects with an [Error] whose message is the body, or a text of the
    call's own when the body is empty. *)
Definition reports_failures (JSON_parse : string -> option jsval)
    (call : Api.Server -> string -> Api.Net (outcome jsval)) : Prop :=
  forall server token log,
  exists req,
    (call server token log).2 = (log ++ [req])%list
    /\ Api.req_authorization req = "Bearer " ++ token
    /\ match server req with
       | Api.FetchFailed e => (call server token log).1 = Rejected e
       | Api.FetchReplied response =>
           if Api.ok response then
             (call server token log).1
             = match JSON_parse (Api.body response) with
               | Some v => Resolved v
               | None => Rejected Api.syntax_error
               end
           else
             exists message,
               (call server token log).1 = Rejected (ThrownError message)
               /\ message <> ""
               /\ (Api.body response <> "" -> message = Api.body response)
       end.

End Observations.

(** ** More concrete inputs *)

Module MoreSamples.

Import MetricsStore LiveSession Channel Samples.

(** The store of a process on the SQLite backend after a snapshot of two
    readings, and its table. *)
Definition sqlite_store_two : Store :=
  (storeMetrics [reading 1 70 "T0"; reading 2 80 "T1"] (fresh true)).2.

Definition table_two : gmap Z Row :=
  <[2 := row_params (reading 2 80 "T1")]> (<[1 := row_params (reading 1 70 "T0")]> ∅).

End MoreSamples.

(** * The navigator (App.tsx) *)

Module Navigator.

(** The screens [AppNavigator] registers: [Login] alone when [!accessToken],
    the screens of the app otherwise. *)
Definition screens (accessToken : option string) : list string :=
  if negb (LiveSession.has_token accessToken) then ["Login"]
  else ["Dashboard"; "Glucose"; "Insights"; "JoinRoom"; "EHRConnect";
        "LiveSession"; "Detail"].

End Navigator.

(** * The mock readings (App.tsx and GlucoseScreen.tsx)

    The dashboard and the glucose screen draw their readings from
    [Math.random()].  The results of [Math.random()] are inputs of the model,
    as exact rationals; [Math.round] is the nearest integer, halves up. *)

Module Simulation.

Import QArith Qround Qminmax.
Local Open Scope Z_scope.

(** [Math.round]. *)
Definition Math_round (x : Q) : Z := Qfloor (x + (1 # 2))%Q.

(** What [Math.random()] may return: a number of [0, 1). *)
Definition unit_interval (r : Q) : Prop := (0 <= r)%Q /\ (r < 1)%Q.

(** The two draws of one run of the dashboard's interval callback. *)
Definition unit_draws (r : Q * Q) : Prop := unit_interval r.1 /\ unit_interval r.2.

(** [clamp] of App.tsx: [Math.max(lo, Math.min(hi, n))]. *)
Definition clamp (n lo hi : Z) : Z := Z.max lo (Z.min hi n).

Inductive Trend : Type := Rising | Falling | Stable.

Inductive Zone : Type := Rest | FatBurn | Cardio | Peak.

(** [computeTrend]. *)
Definition computeTrend (prev next : Z) : Trend :=
  let d := next - prev in
  if Z.abs d <=? 2 then Stable
  else if d >? 0 then Rising else Falling.

(** [computeZone]. *)
Definition computeZone (hr : Z) : Zone :=
  if hr <? 85 then Rest
  else if hr <? 110 then FatBurn
  else if hr <? 140 then Cardio
  else Peak.

(** The position of a zone on the scale from rest to peak. *)
Definition zone_rank (z : Zone) : Z :=
  match z with Rest => 0 | FatBurn => 1 | Cardio => 2 | Peak => 3 end.

(** The reading cells of [DashboardScreen] ([lastUpdate] is left out). *)
Record Dashboard : Type := mkDashboard {
  glucose : Z;
  prevGlucose : Z;
  heartRate : Z
}.

Definition dashboard0 : Dashboard := mkDashboard 112 112 76.

(** One run of the interval callback of [DashboardScreen]; [r1] and [r2]
    are the two results of [Math.random()].  The updater of [setPrevGlucose]
    computes [next] from [gPrev], hands it to [setGlucose], and returns
    [gPrev]. *)
Definition dashboard_tick (r : Q * Q) (s : Dashboard) : Dashboard :=
  let gPrev := prevGlucose s in
  let next := clamp (Math_round (inject_Z gPrev + (r.1 * 10 - 5))%Q) 70 220 in
  let hr := heartRate s in
  mkDashboard next gPrev (clamp (Math_round (inject_Z hr + (r.2 * 8 - 4))%Q) 55 160).

Definition dashboard_run (rs : list (Q * Q)) (s : Dashboard) : Dashboard :=
  fold_left (fun s r => dashboard_tick r s) rs s.

(** [trend] and the delta pill of the dashboard. *)
Definition trend (s : Dashboard) : Trend := computeTrend (prevGlucose s) (glucose s).

Definition delta (s : Dashboard) : Z := glucose s - prevGlucose s.

(** The updater of [setCurrentGlucose] in [GlucoseScreen]; [r] is the result
    of [Math.random()]. *)
Definition next_glucose (r : Q) (prev : Z) : Z :=
  let change := ((r - (1 # 2)) * 10)%Q in
  let newValue := Qmax 70 (Qmin 220 (inject_Z prev + change)) in
  Math_round newValue.

(** A reading between the bounds of the simulation. *)
Definition reading_in_bounds (reading : Glucose.GlucoseReading) : Prop :=
  70 <= Glucose.value reading <= 220.

(** The cells of [GlucoseScreen] that the interval writes. *)
Record Monitor : Type := mkMonitor {
  currentGlucose : Z;
  glucoseHistory : list Glucose.GlucoseReading
}.

Definition monitor0 : Monitor := mkMonitor 112 [].

(** One run of the interval callback of [GlucoseScreen] at time [now]: the
    reading it records holds the [currentGlucose] of the render that set the
    interval up, and the effect sets a new interval whenever
    [currentGlucose] changes, so that value is the one before this tick. *)
Definition monitor_tick (tick : Z * Q) (m : Monitor) : Monitor :=
  mkMonitor (next_glucose tick.2 (currentGlucose m))
            (Glucose.push_reading tick.1 (currentGlucose m) (glucoseHistory m)).

Definition monitor_run (ticks : list (Z * Q)) (m : Monitor) : Monitor :=
  fold_left (fun m tick => monitor_tick tick m) ticks m.

End Simulation.

(** * EHRConnectScreen.tsx

    The four handlers of the screen.  Each runs from press to end with the
    outcome of its API call as an input. *)

Module Ehr.

(** The [useState] cells of [EHRConnectScreen]. *)
Record Screen : Type := mkScreen {
  status : jsval;
  vitals : jsval;
  isLoading : bool;
  isConnecting : bool;
  isFetchingVitals : bool;
  error : option string
}.

Definition initial : Screen := mkScreen JNull (JArr []) false false false None.

(** [status?.connected], as the render tests it. *)
Definition connected_status (status : jsval) : bool :=
  truthy (get_opt status "connected").

Definition connected (s : Screen) : bool := connected_status (status s).

(** [err instanceof Error ? err.message : generic]. *)
Definition message_or (generic : string) (err : thrown) : string :=
  match err with
  | ThrownError message => message
  | ThrownOther => generic
  end.

(** [refreshStatus]; [fetched] is how [fetchEhrConnection] ended. *)
Definition refreshStatus (accessToken : option string) (fetched : outcome jsval)
    (s : Screen) : Screen :=
  if negb (LiveSession.has_token accessToken) then s
  else
    match fetched with
    | Resolved data =>
        mkScreen data (vitals s) false (isConnecting s) (isFetchingVitals s) None
    | Rejected err =>
        mkScreen (status s) (vitals s) false (isConnecting s) (isFetchingVitals s)
                 (Some (message_or "Unable to load EHR status." err))
    end.

(** [handleConnect]; [fetched] is how [fetchEhrAuthUrl] ended and [opened]
    how [Linking.openURL] ended.  The result lists the URLs handed to
    [Linking.openURL]. *)
Definition handleConnect (accessToken : option string) (fetched : outcome jsval)
    (opened : outcome ()) (s : Screen) : Screen * list jsval :=
  if negb (LiveSession.has_token accessToken) then (s, [])
  else
    let failed err :=
      mkScreen (status s) (vitals s) (isLoading s) false (isFetchingVitals s)
               (Some (message_or "Unable to start connection." err)) in
    match fetched with
    | Rejected err => (failed err, [])
    | Resolved data =>
        match get data "url" with
        | None => (failed MetricsStore.type_error, [])
        | Some url =>
            match opened with
            | Resolved _ =>
                (mkScreen (status s) (vitals s) (isLoading s) false
                          (isFetchingVitals s) None,
                 [url])
            | Rejected err => (failed err, [url])
            end
        end
    end.

(** [handleDisconnect]; [result] is how [disconnectEhr] ended. *)
Definition handleDisconnect (accessToken : option string) (result : outcome jsval)
    (s : Screen) : Screen :=
  if negb (LiveSession.has_token accessToken) then s
  else
    match result with
    | Resolved _ =>
        mkScreen (JObj [("connected", JBool false)]) (JArr []) false
                 (isConnecting s) (isFetchingVitals s) None
    | Rejected err =>
        mkScreen (status s) (vitals s) false (isConnecting s) (isFetchingVitals s)
                 (Some (message_or "Unable to disconnect." err))
    end.

(** [handleFetchVitals]; [fetched] is how [fetchEhrVitals] ended. *)
Definition handleFetchVitals (accessToken : option string) (fetched : outcome jsval)
    (s : Screen) : Screen :=
  if negb (LiveSession.has_token accessToken) then s
  else
    match fetched with
    | Resolved data =>
        mkScreen (status s) data (isLoading s) (isConnecting s) false None
    | Rejected err =>
        mkScreen (status s) (vitals s) (isLoading s) (isConnecting s) false
                 (Some (message_or "Unable to load vitals." err))
    end.

(** A press on one of the four buttons, with the outcomes of the calls its
    handler makes. *)
Inductive Press : Type :=
  | PressConnect (fetched : outcome jsval) (opened : outcome ())
  | PressRefresh (fetched : outcome jsval)
  | PressDisconnect (result : outcome jsval)
  | PressPull (fetched : outcome jsval).

(** A press reaches its handler when the button is rendered and enabled:
    Connect unless [isConnecting]; Refresh unless [isLoading]; Disconnect
    when [status?.connected], unless [isLoading]; Pull vitals unless
    [!status?.connected || isFetchingVitals]. *)
Definition step (accessToken : option string) (s : Screen) (p : Press) : Screen :=
  match p with
  | PressConnect fetched opened =>
      if isConnecting s then s else (handleConnect accessToken fetched opened s).1
  | PressRefresh fetched =>
      if isLoading s then s else refreshStatus accessToken fetched s
  | PressDisconnect result =>
      if connected s && negb (isLoading s)
      then handleDisconnect accessToken result s else s
  | PressPull fetched =>
      if negb (connected s) || isFetchingVitals s
      then s else handleFetchVitals accessToken fetched s
  end.

Definition run (accessToken : option string) (s : Screen) (presses : list Press)
  : Screen :=
  fold_left (step accessToken) presses s.

(** A refresh that resolved with a status that says connected. *)
Definition reports_connection (p : Press) : bool :=
  match p with
  | PressRefresh (Resolved data) => connected_status data
  | _ => false
  end.

End Ehr.

(** * Properties *)

(** ** The local metric store *)

Module StoreFacts.

Import MetricsStore Samples Observations.

Lemma sql_insert_or_replace_db metric s :
  db (sql_insert_or_replace metric s).2 = db s.
Proof.
  unfold sql_insert_or_replace.
  destruct (get metric "id") as [[]|]; simpl; try done;
    destruct (metrics_table s); done.
Qed.

Lemma sqlite_insert_each_db metrics s :
  db (sqlite_insert_each metrics s).2 = db s.
Proof.
  revert s. induction metrics as [|metric rest IH]; intros s; simpl; [done|].
  unfold await.
  pose proof (sql_insert_or_replace_db metric s) as Hdb.
  destruct (sql_insert_or_replace metric s) as [[[]|e] s1]; simpl in *.
  - by rewrite IH.
  - done.
Qed.

Lemma db_init_db b s : db (db_init b s).2 = db s.
Proof.
  destruct b; simpl; [|done].
  unfold sqlite_init, sql_create_table. by destruct (metrics_table s).
Qed.

Lemma db_init_resolved b s : (db_init b s).1 = Resolved tt.
Proof.
  destruct b; simpl; [|done].
  unfold sqlite_init, sql_create_table. by destruct (metrics_table s).
Qed.

Lemma db_loadCachedMetrics_store b limit s :
  (db_loadCachedMetrics b limit s).2 = s.
Proof.
  destruct b; simpl; [|done].
  unfold sqlite_loadCachedMetrics, await, sql_select_latest.
  by destruct (metrics_table s).
Qed.

Lemma db_storeMetrics_db b metrics s :
  db (db_storeMetrics b metrics s).2 = db s.
Proof.
  destruct b; simpl; [|done].
  unfold sqlite_storeMetrics, await, sql_delete_all.
  destruct (metrics_table s); simpl; [|done].
  by rewrite sqlite_insert_each_db.
Qed.

Lemma db_addMetric_db b metric s :
  db (db_addMetric b metric s).2 = db s.
Proof.
  destruct b; simpl; [|done]. apply sql_insert_or_replace_db.
Qed.

Lemma initMetricsDb_resolved s : (initMetricsDb s).1 = Resolved tt.
Proof.
  unfold initMetricsDb. destruct (db s); apply db_init_resolved.
Qed.

(** After [initMetricsDb] the handle is the backend of the store. *)
Lemma initMetricsDb_db s : db (initMetricsDb s).2 = Some (backend s).
Proof.
  unfold initMetricsDb, backend.
  destruct (db s) as [b|] eqn:Hdb; rewrite db_init_db; done.
Qed.

Lemma ensure_db_resolved s : (ensure_db s).1 = Resolved tt.
Proof.
  unfold ensure_db. destruct (db s); [done|]. apply initMetricsDb_resolved.
Qed.

Lemma ensure_db_db s : db (ensure_db s).2 = Some (backend s).
Proof.
  unfold ensure_db, backend.
  destruct (db s) as [b|] eqn:Hdb; simpl; [done|].
  rewrite initMetricsDb_db. unfold backend. by rewrite Hdb.
Qed.

(** Without a handle, the guard of the three data functions is a call of
    [initMetricsDb]. *)
Lemma ensure_db_none s : db s = None -> ensure_db s = initMetricsDb s.
Proof. unfold ensure_db. by intros ->. Qed.

(** With a handle, the guard does nothing. *)
Lemma ensure_db_some s b : db s = Some b -> ensure_db s = (Resolved tt, s).
Proof. unfold ensure_db. by intros ->. Qed.

(** The first step of the three data functions: the guard resolves and leaves
    the handle of the store's backend, on which the call then runs. *)
Ltac through_guard s :=
  let Hres := fresh "Hres" in
  let Hhandle := fresh "Hhandle" in
  pose proof (ensure_db_resolved s) as Hres;
  pose proof (ensure_db_db s) as Hhandle;
  unfold loadCachedMetrics, storeMetrics, addMetric, await;
  destruct (ensure_db s) as [[[]|?] ?]; simpl in *; [rewrite Hhandle; simpl | done].

(** Every exported function leaves the handle of the store's backend. *)
Lemma call_db c s : db (call c s) = Some (backend s).
Proof.
  destruct c as [|limit|metrics|metric]; simpl.
  - apply initMetricsDb_db.
  - through_guard s. by rewrite db_loadCachedMetrics_store.
  - through_guard s. by rewrite db_storeMetrics_db.
  - through_guard s. by rewrite db_addMetric_db.
Qed.

Lemma backend_of_handle s b : db s = Some b -> backend s = b.
Proof. unfold backend. by intros ->. Qed.

Lemma calls_db cs s b : db s = Some b -> db (calls cs s) = Some b.
Proof.
  revert s. induction cs as [|c cs IH]; intros s Hdb; simpl; [done|].
  apply IH. rewrite call_db. by rewrite (backend_of_handle s b).
Qed.

Lemma sql_create_table_is_Some s : is_Some (metrics_table (sql_create_table s).2).
Proof.
  unfold sql_create_table.
  destruct (metrics_table s) eqn:Ht; simpl; rewrite ?Ht; by eexists.
Qed.

Lemma initMetricsDb_ready s : ready (initMetricsDb s).2.
Proof.
  unfold ready. rewrite initMetricsDb_db. intros Hb. injection Hb as Hb.
  unfold initMetricsDb, backend in *.
  destruct (db s) as [b|] eqn:Hdb.
  - subst b. apply sql_create_table_is_Some.
  - destruct (sqlite_available s); [|done]. apply sql_create_table_is_Some.
Qed.

(** On a handle whose table exists (and on the memory handle) [init] changes
    nothing. *)
Lemma db_init_ready b s : db s = Some b -> ready s -> db_init b s = (Resolved tt, s).
Proof.
  intros Hdb Hready. destruct b; simpl; [|done].
  unfold sqlite_init, sql_create_table.
  destruct (Hready Hdb) as [t ->]. done.
Qed.

Lemma db_loadCachedMetrics_resolved b limit s :
  db s = Some b -> ready s ->
  exists cached, (db_loadCachedMetrics b limit s).1 = Resolved cached.
Proof.
  intros Hdb Hready. destruct b; simpl.
  - unfold sqlite_loadCachedMetrics, await, sql_select_latest.
    destruct (Hready Hdb) as [t ->]. simpl. eauto.
  - eauto.
Qed.

Lemma sql_insert_or_replace_table metric s :
  is_Some (metrics_table s) ->
  is_Some (metrics_table (sql_insert_or_replace metric s).2).
Proof.
  intros [t Ht]. unfold sql_insert_or_replace. rewrite Ht.
  destruct (get metric "id") as [[]|]; simpl; rewrite ?Ht; by eexists.
Qed.

Lemma sqlite_insert_each_table metrics s :
  is_Some (metrics_table s) ->
  is_Some (metrics_table (sqlite_insert_each metrics s).2).
Proof.
  revert s. induction metrics as [|metric rest IH]; intros s Ht; simpl; [done|].
  unfold await.
  pose proof (sql_insert_or_replace_table metric s Ht) as Ht1.
  destruct (sql_insert_or_replace metric s) as [[[]|e] s1]; simpl in *; [|done].
  by apply IH.
Qed.

(** No call on a handle drops the table. *)
Lemma db_call_table b s :
  is_Some (metrics_table s) ->
  is_Some (metrics_table (db_init b s).2)
  /\ (forall limit, is_Some (metrics_table (db_loadCachedMetrics b limit s).2))
  /\ (forall metrics, is_Some (metrics_table (db_storeMetrics b metrics s).2))
  /\ (forall metric, is_Some (metrics_table (db_addMetric b metric s).2)).
Proof.
  intros Ht. split_and!.
  - destruct b; simpl; [apply sql_create_table_is_Some | done].
  - intros limit. by rewrite db_loadCachedMetrics_store.
  - intros metrics. destruct b; simpl; [|done].
    unfold sqlite_storeMetrics, await, sql_delete_all.
    destruct Ht as [t ->]. simpl. apply sqlite_insert_each_table. by eexists.
  - intros metric. destruct b; simpl; [|done].
    by apply sql_insert_or_replace_table.
Qed.

Lemma ready_of_table s : is_Some (metrics_table s) -> ready s.
Proof. by intros Ht _. Qed.

Lemma fresh_ready sqlite : ready (fresh sqlite).
Proof. intros Hdb. discriminate Hdb. Qed.

(** [ready] is an invariant of the exported functions. *)
Lemma call_ready c s : ready s -> ready (call c s).
Proof.
  intros Hready Hdb. rewrite call_db in Hdb. injection Hdb as Hbackend.
  assert (Hguard : is_Some (metrics_table (ensure_db s).2)).
  { unfold ensure_db. destruct (db s) as [b|] eqn:Hd; simpl.
    - apply Hready. unfold backend in Hbackend. rewrite Hd in Hbackend. congruence.
    - apply initMetricsDb_ready. rewrite initMetricsDb_db. by rewrite Hbackend. }
  destruct c as [|limit|metrics|metric]; simpl.
  - apply initMetricsDb_ready. rewrite initMetricsDb_db. by rewrite Hbackend.
  - through_guard s. by apply db_call_table.
  - through_guard s. by apply db_call_table.
  - through_guard s. by apply db_call_table.
Qed.

Lemma calls_ready cs s : ready s -> ready (calls cs s).
Proof.
  revert s. induction cs as [|c cs IH]; intros s Hready; simpl; [done|].
  by apply IH, call_ready.
Qed.

Lemma slice0_nil {A} n : slice0 n (@nil A) = [].
Proof. unfold slice0. destruct (n <? 0); apply take_nil. Qed.

Lemma sql_limit_nil {A} n : sql_limit n (@nil A) = [].
Proof. unfold sql_limit. destruct (n <? 0); [done|apply take_nil]. Qed.




(** [storeMetrics] on the memory backend: the cache is the list given. *)
Lemma storeMetrics_memory data s :
  backend s = MemoryDb -> memoryCache (storeMetrics data s).2 = data.
Proof.
  intros Hbackend. through_guard s. by rewrite Hbackend.
Qed.

(** The columns of a row are those the insert statement binds. *)
Lemma row_params_columns m row : row = row_params m <-> holds_columns_of m row.
Proof.
  unfold holds_columns_of, row_params, bind_param. split.
  - intros ->. simpl. split_and!; try done. by destruct (get_opt m "unit").
  - destruct row as [c1 c2 c3 c4]. simpl. intros (-> & -> & -> & ->). f_equal.
    by destruct (get_opt m "unit").
Qed.

(** The row of a well-typed reading holds its four fields, [null] standing
    for a unit that is absent. *)
Lemma row_params_typed hm : row_params (Metric.to_js hm) = typed_row hm.
Proof. destruct hm as [i type v [| |u] at_]; reflexivity. Qed.

Lemma get_id_typed hm : get (Metric.to_js hm) "id" = Some (JNum (Metric.id hm)).
Proof. done. Qed.

(** C9. The backend is chosen by the first call on a store without a handle
    (SQLite when the module loads, the memory cache otherwise) and never
    again: with a handle in place, a further [initMetricsDb] resolves, keeps
    the handle and the memory cache, keeps an existing table with all its
    rows (on a store whose table exists it changes nothing at all), and no
    sequence of calls of the exported functions replaces the handle. *)
Theorem initMetricsDb_keeps_backend (s : MetricsStore.Store) (b : MetricsDb)
    (Hdb : db s = Some b) :
  (exists s', initMetricsDb s = (Resolved tt, s')
     /\ db s' = Some b
     /\ memoryCache s' = memoryCache s
     /\ (forall t, metrics_table s = Some t -> metrics_table s' = Some t)
     /\ (ready s -> s' = s))
  /\ (forall cs, db (calls cs s) = Some b)
  /\ (forall s0 c cs,
        db s0 = None ->
        db (calls (c :: cs) s0)
        = Some (if sqlite_available s0 then SqliteDb else MemoryDb)).
Proof.
  split_and!.
  - exists (initMetricsDb s).2. split_and!.
    + rewrite <- (initMetricsDb_resolved s). by destruct (initMetricsDb s).
    + rewrite initMetricsDb_db. by rewrite (backend_of_handle s b).
    + unfold initMetricsDb. rewrite Hdb. destruct b; simpl; [|done].
      unfold sqlite_init, sql_create_table. by destruct (metrics_table s).
    + intros t Ht. unfold initMetricsDb. rewrite Hdb. destruct b; simpl; [|done].
      unfold sqlite_init, sql_create_table. by rewrite Ht.
    + intros Hready. unfold initMetricsDb. rewrite Hdb.
      by rewrite db_init_ready.
  - intros cs. by apply calls_db.
  - intros s0 c cs Hnone. simpl. apply calls_db.
    rewrite call_db. unfold backend. by rewrite Hnone.
Qed.

Lemma initMetricsDb_keeps_backend_witness :
  db store_after_one_add = Some MemoryDb
  /\ initMetricsDb store_after_one_add = (Resolved tt, store_after_one_add)
  /\ db (calls [CallInit; CallStore []; CallInit] store_after_one_add) = Some MemoryDb.
Proof.
  split; [reflexivity|].
  destruct (initMetricsDb_keeps_backend store_after_one_add MemoryDb eq_refl)
    as [[s' [Hinit [_ [_ [_ Hsame]]]]] [Hcalls _]].
  split; [|apply Hcalls].
  rewrite Hinit. f_equal. apply Hsame. intros Hsql. discriminate Hsql.
Defined.

(** C10. Each data function may be the first call on the store: without a
    handle it behaves exactly as after an explicit [initMetricsDb], it leaves
    a handle behind, [loadCachedMetrics] resolves (to the empty list on a
    store that was never written), and the expression
    [db?.loadCachedMetrics(limit) ?? []] is the empty list when there is no
    handle. *)
Theorem data_calls_initialise_first (s : MetricsStore.Store) (Hnone : db s = None) :
  (forall limit,
      loadCachedMetrics limit s = loadCachedMetrics limit (initMetricsDb s).2
      /\ exists cached, (loadCachedMetrics limit s).1 = Resolved cached)
  /\ (forall metrics, storeMetrics metrics s = storeMetrics metrics (initMetricsDb s).2)
  /\ (forall metric, addMetric metric s = addMetric metric (initMetricsDb s).2)
  /\ (forall c, is_Some (db (call c s)))
  /\ (forall sqlite limit, (loadCachedMetrics limit (fresh sqlite)).1 = Resolved [])
  /\ (forall limit s', loadCachedMetrics_on None limit s' = (Resolved [], s')).
Proof.
  pose proof (initMetricsDb_resolved s) as Hres.
  pose proof (initMetricsDb_db s) as Hdb1.
  pose proof (initMetricsDb_ready s) as Hready.
  destruct (initMetricsDb s) as [o s1] eqn:Hinit. simpl in *. subst o.
  assert (Hguard : ensure_db s = (Resolved tt, s1))
    by (rewrite ensure_db_none; done).
  assert (Hguard1 : ensure_db s1 = (Resolved tt, s1))
    by (by apply (ensure_db_some s1 (backend s))).
  split_and!.
  - intros limit. split.
    + unfold loadCachedMetrics, await. by rewrite Hguard, Hguard1.
    + unfold loadCachedMetrics, await. rewrite Hguard, Hdb1. simpl.
      by apply db_loadCachedMetrics_resolved.
  - intros metrics. unfold storeMetrics, await. by rewrite Hguard, Hguard1.
  - intros metric. unfold addMetric, await. by rewrite Hguard, Hguard1.
  - intros c. rewrite call_db. eauto.
  - intros [] limit; unfold default_limit; simpl.
    + unfold sqlite_loadCachedMetrics, await, sql_select_latest. simpl.
      rewrite map_to_list_empty. unfold merge_sort. simpl.
      by rewrite sql_limit_nil.
    + by rewrite slice0_nil.
  - done.
Qed.

Lemma data_calls_initialise_first_witness :
  db (fresh true) = None
  /\ (loadCachedMetrics (Some 20) (fresh true)).1 = Resolved []
  /\ is_Some (db (call (CallAdd JNull) (fresh true))).
Proof.
  split; [reflexivity|].
  destruct (data_calls_initialise_first (fresh true) eq_refl)
    as [_ [_ [_ [Hhandle [Hfresh _]]]]].
  split; [apply Hfresh | apply Hhandle].
Defined.

End StoreFacts.

(** ** The live channel and the view *)

Module ViewFacts.

Import MetricsStore LiveSession Channel Samples Observations StoreFacts.

Lemma slice0_take {A} (n : nat) (l : list A) : slice0 (Z.of_nat n) l = take n l.
Proof.
  unfold slice0. destruct (Z.of_nat n <? 0) eqn:Hneg.
  - apply Z.ltb_lt in Hneg. lia.
  - by rewrite Nat2Z.id.
Qed.

Lemma slice0_50 {A} (l : list A) : slice0 50 l = take 50 l.
Proof. apply (slice0_take 50). Qed.

Lemma view_fire_and_forget {A} (c : Async A) a :
  screen (fire_and_forget c a) = screen a.
Proof. done. Qed.

(** A snapshot message: the view becomes the array, and [storeMetrics] is
    called with it. *)
Lemma onmessage_snapshot payload a :
  is_snapshot payload = true ->
  onmessage_parsed (Some payload) a
  = fire_and_forget (storeMetrics (snapshot_data payload))
      (on_screen (setMetrics (snapshot_data payload)) a).
Proof.
  unfold is_snapshot, snapshot_data, onmessage_parsed, onmessage_payload.
  destruct (get payload "type") as [type|]; [|done].
  intros [Htype Harr]%andb_true_iff. rewrite Htype.
  by destruct (get_opt payload "data").
Qed.

(** An incremental message: the reading goes in front of the view, which is
    cut to 50 entries, and [addMetric] is called with it. *)
Lemma onmessage_incremental payload a :
  is_incremental payload = true ->
  onmessage_parsed (Some payload) a
  = fire_and_forget (addMetric payload)
      (on_screen (fun s => setMetrics (take 50 (payload :: metrics s)) s) a).
Proof.
  unfold is_incremental, is_snapshot, onmessage_parsed, onmessage_payload, on_screen.
  intros [Hsnap Htruthy]%andb_true_iff.
  destruct (get payload "type") as [type|] eqn:Htype.
  - rewrite Htruthy, slice0_50.
    destruct (strict_eq_str type "snapshot"); [|done].
    by destruct (get_opt payload "data").
  - destruct payload; simpl in *; done.
Qed.

(** Any other payload changes nothing. *)
Lemma onmessage_other payload a :
  is_snapshot payload = false ->
  truthy (get_opt payload "metric_type") = false ->
  onmessage_parsed (Some payload) a = a.
Proof.
  unfold is_snapshot, onmessage_parsed, onmessage_payload.
  intros Hsnap Hfalsy.
  destruct (get payload "type") as [type|]; [|done].
  rewrite Hfalsy.
  destruct (strict_eq_str type "snapshot"); [|done].
  by destruct (get_opt payload "data").
Qed.

Lemma lookup_field_absent k fields :
  existsb (fun kv => String.eqb k kv.1) fields = false ->
  lookup_field k fields = JUndefined.
Proof.
  induction fields as [|[k' v] rest IH]; simpl; [done|].
  destruct (String.eqb k k'); simpl; [done|apply IH].
Qed.

(** A payload without a property [k] reads [undefined] there. *)
Lemma get_opt_absent k payload :
  has_field k payload = false -> get_opt payload k = JUndefined.
Proof.
  unfold has_field, get_opt, get.
  destruct payload; try done. apply lookup_field_absent.
Qed.

Lemma view_snapshot payload a :
  is_snapshot payload = true ->
  metrics (screen (onmessage_parsed (Some payload) a)) = snapshot_data payload.
Proof. intros H. by rewrite onmessage_snapshot. Qed.

Lemma view_incremental payload a :
  is_incremental payload = true ->
  metrics (screen (onmessage_parsed (Some payload) a))
  = take 50 (payload :: metrics (screen a)).
Proof. intros H. by rewrite onmessage_incremental. Qed.

Lemma deliver_cons m ms a :
  deliver (m :: ms) a = deliver ms (onmessage_parsed (Some m) a).
Proof. done. Qed.

Lemma deliver_nil a : deliver [] a = a.
Proof. done. Qed.

(** The view after a run of incremental messages. *)
Lemma view_deliver_incrementals ms a :
  Forall (fun m => is_incremental m = true) ms ->
  ms <> [] ->
  metrics (screen (deliver ms a)) = take 50 (reverse ms ++ metrics (screen a)).
Proof.
  intros Hinc. revert a.
  induction Hinc as [|m ms Hm Hms IH]; intros a Hne; [done|].
  rewrite deliver_cons.
  destruct ms as [|m' ms'].
  - rewrite deliver_nil. by rewrite view_incremental.
  - rewrite IH by done. rewrite view_incremental by done.
    rewrite reverse_cons with (x := m), <- app_assoc. simpl.
    set (older := metrics (screen a)). set (newer := reverse (m' :: ms')).
    destruct (decide (length newer < 50)%nat) as [Hlt|Hge].
    + rewrite !take_app_ge by lia. f_equal.
      replace (50 - length newer)%nat with (S (49 - length newer)) by lia.
      simpl. f_equal. rewrite take_take. f_equal. lia.
    + rewrite !take_app_le by lia. done.
Qed.

Lemma identities_take n view : identities (take n view) = take n (identities view).
Proof. unfold identities. symmetry. apply firstn_map. Qed.

Lemma NoDup_take {A} n (l : list A) : NoDup l -> NoDup (take n l).
Proof. intros Hl. eapply sublist_NoDup; [exact Hl | apply sublist_take]. Qed.

(** What a successful refresh leaves: the fetched list as the view, when
    [storeMetrics] resolves as well. *)
Lemma refresh_success token latest a st :
  has_token token = true ->
  storeMetrics latest (store a) = (Resolved tt, st) ->
  metrics (screen (refresh token (Resolved latest) a).2) = latest.
Proof.
  intros Htoken Hstore. unfold refresh, loadMetrics. rewrite Htoken. simpl.
  by rewrite Hstore.
Qed.

(** C1 (amended). A snapshot and a successful refresh set the view to the
    delivered list, an incremental reading is put in front of the view, which
    is cut to 50 entries.  The identities of the view are pairwise distinct
    afterwards when those of the delivered list are, respectively when the
    view had distinct identities and the new one was not among them.  A
    reading whose identity is already there is not merged: after the snapshot
    [{id:2,value:80}] and the incremental [{id:2,value:85}] the view holds
    both, the newer first. *)
Theorem view_identities_distinct_when_fresh :
  (forall payload a,
      is_snapshot payload = true ->
      metrics (screen (onmessage_parsed (Some payload) a)) = snapshot_data payload
      /\ (NoDup (identities (snapshot_data payload)) ->
          NoDup (identities (metrics (screen (onmessage_parsed (Some payload) a))))))
  /\ (forall payload a,
      is_incremental payload = true ->
      metrics (screen (onmessage_parsed (Some payload) a))
      = take 50 (payload :: metrics (screen a))
      /\ (NoDup (identities (metrics (screen a))) ->
          metric_id payload ∉ identities (metrics (screen a)) ->
          NoDup (identities (metrics (screen (onmessage_parsed (Some payload) a))))))
  /\ (forall token latest a st,
      has_token token = true ->
      storeMetrics latest (store a) = (Resolved tt, st) ->
      metrics (screen (refresh token (Resolved latest) a).2) = latest
      /\ (NoDup (identities latest) ->
          NoDup (identities (metrics (screen (refresh token (Resolved latest) a).2)))))
  /\ (forall sqlite,
      metrics (screen (deliver [snapshot_message [reading 2 80 "T0"]; reading 2 85 "T1"]
                               (app0 sqlite)))
      = [reading 2 85 "T1"; reading 2 80 "T0"]).
Proof.
  split_and!.
  - intros payload a Hsnap. split; [by apply view_snapshot|].
    intros Hnodup. by rewrite view_snapshot.
  - intros payload a Hinc. split; [by apply view_incremental|].
    intros Hnodup Hfresh. rewrite view_incremental by done.
    rewrite identities_take. apply NoDup_take. simpl.
    by apply NoDup_cons.
  - intros token latest a st Htoken Hstore.
    split; [by apply (refresh_success token latest a st)|].
    intros Hnodup. by rewrite (refresh_success token latest a st).
  - intros sqlite. rewrite !deliver_cons, deliver_nil.
    rewrite view_incremental by done. by rewrite view_snapshot.
Qed.

Lemma view_identities_distinct_when_fresh_witness :
  NoDup (identities (metrics (screen
     (onmessage_parsed (Some (snapshot_message [reading 1 70 "T0"; reading 2 80 "T1"]))
                       (app0 false)))))
  /\ NoDup (identities (metrics (screen
     (onmessage_parsed (Some (reading 3 90 "T2"))
        (onmessage_parsed (Some (snapshot_message [reading 1 70 "T0"; reading 2 80 "T1"]))
                          (app0 false))))))
  /\ NoDup (identities (metrics (screen
     (refresh (Some "token") (Resolved [reading 1 70 "T0"; reading 2 80 "T1"])
              (app0 false)).2))).
Proof.
  destruct view_identities_distinct_when_fresh as [Hsnap [Hinc [Hrefresh _]]].
  assert (Hids : NoDup (identities [reading 1 70 "T0"; reading 2 80 "T1"])).
  { apply NoDup_cons. split.
    - intros Hin. apply list_elem_of_singleton in Hin. discriminate Hin.
    - apply NoDup_singleton. }
  split_and!.
  - apply Hsnap; [reflexivity | exact Hids].
  - apply Hinc; [reflexivity | exact Hids |].
    intros Hin. apply elem_of_cons in Hin as [Heq|Hin]; [discriminate Heq|].
    apply list_elem_of_singleton in Hin. discriminate Hin.
  - apply (Hrefresh (Some "token") _ (app0 false)
             (storeMetrics [reading 1 70 "T0"; reading 2 80 "T1"] (fresh false)).2);
      [reflexivity | reflexivity | exact Hids].
Defined.

(** C1, as stated, fails: the snapshot [{id:2,value:80}] followed by the
    incremental [{id:2,value:85}] (readings with all their fields) leaves a
    view of two entries with the same identity.  Taken literally, without a
    [metric_type], the second message is no reading for the handler and the
    view keeps the value 80. *)
Lemma existing_identity_is_not_replaced :
  let view :=
    metrics (screen (deliver [snapshot_message [reading 2 80 "T0"]; reading 2 85 "T1"]
                             (app0 false))) in
  length view = 2%nat
  /\ ~ NoDup (identities view)
  /\ view <> [reading 2 85 "T1"]
  /\ metrics (screen (deliver [snapshot_message [JObj [("id", JNum 2); ("value", JNum 80)]];
                               JObj [("id", JNum 2); ("value", JNum 85)]]
                              (app0 false)))
     = [JObj [("id", JNum 2); ("value", JNum 80)]].
Proof.
  split_and!.
  - reflexivity.
  - intros Hnodup. apply NoDup_cons in Hnodup as [Hnotin _].
    apply Hnotin. apply list_elem_of_singleton. reflexivity.
  - discriminate.
  - reflexivity.
Qed.




(** C5. A frame that [JSON.parse] rejects, and a parsed value that neither is
    a snapshot ([type] ["snapshot"] with an array as [data]) nor has a
    [metric_type] property, leave the screen and the metric store exactly as
    they were; the handler returns normally, every throw inside it being
    caught. *)
Theorem malformed_payload_ignored (JSON_parse : string -> option jsval)
    (event_data : string) (a : App)
    (Hmalformed :
       JSON_parse event_data = None
       \/ exists payload,
            JSON_parse event_data = Some payload
            /\ is_snapshot payload = false
            /\ has_field "metric_type" payload = false) :
  onmessage JSON_parse event_data a = a.
Proof.
  unfold onmessage.
  destruct Hmalformed as [-> | [payload [-> [Hsnap Hfield]]]]; [done|].
  apply onmessage_other; [done|].
  by rewrite (get_opt_absent "metric_type" payload).
Qed.

Lemma malformed_payload_ignored_witness :
  onmessage (fun _ => None) "not json" (app0 true) = app0 true
  /\ onmessage (fun _ => Some JNull) "null" (app0 true) = app0 true
  /\ onmessage (fun _ => Some (JObj [("type", JStr "snapshot"); ("data", JNum 1)]))
               "a snapshot without an array" (app0 false) = app0 false.
Proof.
  split_and!.
  - apply malformed_payload_ignored. left. reflexivity.
  - apply malformed_payload_ignored. right. exists JNull. split_and!; reflexivity.
  - apply malformed_payload_ignored. right.
    eexists. split_and!; reflexivity.
Defined.

(** C4 (amended). Incremental messages applied to an empty view leave the
    delivered readings newest first, cut to the newest 50: the view never has
    more than 50 entries, and its identities are distinct when the delivered
    ones are.  A snapshot restarts the view: after a snapshot and then
    incremental messages, the view is these, newest first, followed by the
    snapshot's readings in the snapshot's order, cut to 50. *)
Theorem incremental_view_newest_first_capped (ms : list jsval) (a : App)
    (Hinc : Forall (fun m => is_incremental m = true) ms) :
  (metrics (screen a) = [] ->
     metrics (screen (deliver ms a)) = take 50 (reverse ms)
     /\ (length (metrics (screen (deliver ms a))) <= 50)%nat
     /\ (NoDup (identities ms) -> NoDup (identities (metrics (screen (deliver ms a))))))
  /\ (forall payload,
        is_snapshot payload = true ->
        metrics (screen (deliver (payload :: ms) a))
        = if decide (ms = []) then snapshot_data payload
          else take 50 (reverse ms ++ snapshot_data payload)).
Proof.
  split.
  - intros Hempty.
    assert (Hview : metrics (screen (deliver ms a)) = take 50 (reverse ms)).
    { destruct ms as [|m ms']; [by rewrite deliver_nil, Hempty|].
      rewrite view_deliver_incrementals by done.
      by rewrite Hempty, app_nil_r. }
    rewrite Hview. split_and!; [done| |].
    + rewrite length_take. lia.
    + intros Hnodup. rewrite identities_take. apply NoDup_take.
      unfold identities in *. rewrite reverse_Permutation. done.
  - intros payload Hsnap. rewrite deliver_cons.
    destruct (decide (ms = [])) as [->|Hne].
    + rewrite deliver_nil. by apply view_snapshot.
    + rewrite view_deliver_incrementals by done. by rewrite view_snapshot.
Qed.

Lemma incremental_view_newest_first_capped_witness :
  metrics (screen (deliver [reading 1 70 "T0"; reading 2 80 "T1"] (app0 false)))
  = [reading 2 80 "T1"; reading 1 70 "T0"]
  /\ (length (metrics (screen (deliver fifty_one (app0 false)))) <= 50)%nat.
Proof.
  split.
  - destruct (incremental_view_newest_first_capped
                [reading 1 70 "T0"; reading 2 80 "T1"] (app0 false)) as [Hview _].
    + repeat constructor.
    + destruct (Hview eq_refl) as [-> _]. reflexivity.
  - destruct (incremental_view_newest_first_capped fifty_one (app0 false)) as [Hview _].
    + apply Forall_forall. intros m Hm. unfold fifty_one in Hm.
      apply list_elem_of_In, in_map_iff in Hm as [i [<- _]]. reflexivity.
    + destruct (Hview eq_refl) as [_ [Hlen _]]. exact Hlen.
Defined.

(** C4, as stated, fails: a snapshot discards what was delivered before it.
    After the incremental reading 1 and the snapshot [[reading 2]] (distinct
    identities, empty view at the start) the view is [[reading 2]], without
    reading 1. *)
Lemma snapshot_discards_earlier_readings :
  let view :=
    metrics (screen (deliver [reading 1 70 "T0"; snapshot_message [reading 2 80 "T1"]]
                             (app0 false))) in
  view = [reading 2 80 "T1"] /\ reading 1 70 "T0" ∉ view.
Proof.
  split; [reflexivity|].
  intros Hin. apply list_elem_of_singleton in Hin. discriminate Hin.
Qed.

(** The cap of 50 is applied to incremental messages only: a snapshot of 51
    readings is a view of 51 entries. *)
Lemma snapshot_is_not_capped :
  length (metrics (screen (deliver [snapshot_message fifty_one] (app0 false)))) = 51%nat.
Proof. reflexivity. Qed.

End ViewFacts.

(** ** Refresh and the remote fetcher *)

Module RefreshFacts.

Import MetricsStore LiveSession Channel Refresh Samples.

(** The two phases make up [loadMetrics]. *)
Lemma loadMetrics_phases n token fetched a :
  loadMetrics n token fetched a
  = if negb (has_token token) then (Resolved tt, a)
    else loadMetrics_settle n fetched (loadMetrics_start a).
Proof. done. Qed.

(** With nothing arriving in between, the interleaved call is [refresh]. *)
Lemma loadMetrics_interleaved_nil token fetched a :
  loadMetrics_interleaved token [] fetched a = refresh token fetched a.
Proof. done. Qed.

(** What the [catch] block leaves, for the length the callback closed over. *)
Lemma loadMetrics_settle_rejected n err a :
  let result := loadMetrics_settle n (Rejected err) a in
  metricsError (screen result.2) = Some (error_message_of err)
  /\ (n <> 0%nat ->
      result.1 = Resolved tt
      /\ metrics (screen result.2) = metrics (screen a)
      /\ store result.2 = store a)
  /\ (n = 0%nat ->
      forall cached st,
        loadCachedMetrics (Some 20) (store a) = (Resolved cached, st) ->
        result.1 = Resolved tt
        /\ metrics (screen result.2)
           = match cached with [] => metrics (screen a) | _ :: _ => cached end
        /\ store result.2 = st).
Proof.
  unfold loadMetrics_settle, loadMetrics_catch. simpl.
  destruct n as [|n]; simpl.
  - destruct (loadCachedMetrics (Some 20) (store a)) as [[cached|e] st] eqn:Hload.
    + destruct cached as [|c cached]; simpl; split_and!; try done.
      * intros _ cached' st' [= <- <-]. done.
      * intros _ cached' st' [= <- <-]. done.
    + simpl. split_and!; try done.
  - split_and!; done.
Qed.

(** C2. The guard of the cache fallback reads the [metrics.length] the
    callback closed over, not the view at the time the fetch fails.  A call
    made on a view that has entries records the error's message, resolves and
    leaves view and store as the channel left them.  A call made on an empty
    view records the message and, when [loadCachedMetrics(20)] resolves to a
    list that is not empty, makes that list the view, whatever the channel
    has put there meanwhile.  On the input of the claim: the call starts on
    the empty view, the channel delivers a snapshot of 51 readings, the fetch
    fails; the 51 readings on screen are replaced by the 20 the cache
    returns, and the second call, started when the length changed, leaves
    that view when its fetch fails too.  The message recorded is the error's
    own or the generic text; it is on screen unless it is empty. *)
Theorem refresh_failure_reads_closed_over_length :
  (forall token arrived err a,
      has_token token = true ->
      let now := deliver arrived a in
      let result := loadMetrics_interleaved token arrived (Rejected err) a in
      metricsError (screen result.2)
      = Some match err with
             | ThrownError message => message
             | ThrownOther => "Unable to load metrics."
             end
      /\ (metricsError_rendered (screen result.2) = false <-> err = ThrownError "")
      /\ (metrics (screen a) <> [] ->
          result.1 = Resolved tt
          /\ metrics (screen result.2) = metrics (screen now)
          /\ store result.2 = store now)
      /\ (metrics (screen a) = [] ->
          forall cached st,
            loadCachedMetrics (Some 20) (store now) = (Resolved cached, st) ->
            result.1 = Resolved tt
            /\ metrics (screen result.2)
               = match cached with [] => metrics (screen now) | _ :: _ => cached end
            /\ store result.2 = st))
  /\ (let a := app0 false in
      let arrived := [snapshot_message fifty_one] in
      let failed := Rejected (ThrownError "Failed to fetch metrics") in
      let result := loadMetrics_interleaved (Some "token") arrived failed a in
      metrics (screen a) = []
      /\ metrics (screen (deliver arrived a)) = fifty_one
      /\ metrics (screen result.2) = take 20 fifty_one
      /\ metrics (screen (loadMetrics 51 (Some "token") failed result.2).2)
         = take 20 fifty_one).
Proof.
  split.
  - intros token arrived err a Htoken. cbv zeta.
    unfold loadMetrics_interleaved. rewrite Htoken. simpl.
    set (a1 := deliver arrived (loadMetrics_start a)).
    assert (Hview : metrics (screen a1) = metrics (screen (deliver arrived a))
                    /\ store a1 = store (deliver arrived a)).
    { unfold a1, loadMetrics_start. clear. revert a.
      induction arrived as [|payload arrived IH]; intros a; [done|].
      change (deliver (payload :: arrived) ?x)
        with (deliver arrived (onmessage_parsed (Some payload) x)).
      rewrite <- (proj1 (IH (onmessage_parsed (Some payload) a))).
      rewrite <- (proj2 (IH (onmessage_parsed (Some payload) a))).
      assert (Hstep : onmessage_parsed (Some payload)
                        (on_screen (setMetricsError None)
                           (on_screen (setMetricsLoading true) a))
                      = on_screen (setMetricsError None)
                          (on_screen (setMetricsLoading true)
                             (onmessage_parsed (Some payload) a))).
      { unfold onmessage_parsed, onmessage_payload.
        destruct (get payload "type") as [type|]; [|done].
        destruct (strict_eq_str type "snapshot"), (get_opt payload "data");
          try done; by destruct (truthy (get_opt payload "metric_type")). }
      by rewrite Hstep. }
    destruct Hview as [Hview Hstore].
    destruct (loadMetrics_settle_rejected (length (metrics (screen a))) err a1)
      as [Herror [Hkeep Hcache]].
    rewrite Hview, Hstore in *.
    assert (Hmessage : error_message_of err
                       = match err with
                         | ThrownError message => message
                         | ThrownOther => "Unable to load metrics."
                         end) by done.
    split_and!.
    + by rewrite Herror, Hmessage.
    + unfold metricsError_rendered. rewrite Herror.
      destruct err as [message|]; simpl; [|done].
      destruct (String.eqb_spec message ""); simpl; split; congruence.
    + intros Hne. apply Hkeep. by destruct (metrics (screen a)).
    + intros Hempty. apply Hcache. by rewrite Hempty.
  - cbv zeta. split_and!; reflexivity.
Qed.

(** Without a token the callback returns at once. *)
Lemma refresh_without_token fetched a :
  refresh None fetched a = (Resolved tt, a).
Proof. done. Qed.

(** [fetchLatestMetrics] sends one request, whatever the reply. *)
Lemma fetchLatestMetrics_single_attempt JSON_parse server accessToken limit metricType log :
  length (Api.fetchLatestMetrics JSON_parse server accessToken limit metricType log).2
  = S (length log).
Proof.
  unfold Api.fetchLatestMetrics, Api.fetch.
  destruct (server _) as [e|response]; simpl.
  - rewrite length_app. simpl. lia.
  - destruct (negb (Api.ok response)); simpl.
    + rewrite length_app. simpl. lia.
    + destruct (JSON_parse (Api.body response)); simpl; rewrite length_app; simpl; lia.
Qed.

(** On a reply that is not ok the error carries the body as it came, or the
    generic text when the body is empty. *)
Lemma fetchLatestMetrics_not_ok JSON_parse server accessToken limit metricType log response :
  (forall req, server req = Api.FetchReplied response) ->
  Api.ok response = false ->
  (Api.fetchLatestMetrics JSON_parse server accessToken limit metricType log).1
  = Rejected (ThrownError (Api.or_else (Api.body response) "Failed to fetch metrics")).
Proof.
  intros Hserver Hok. unfold Api.fetchLatestMetrics, Api.fetch.
  rewrite Hserver, Hok. done.
Qed.

(** The sibling [requestToken] reads the [detail] of such a body. *)
Lemma requestToken_reads_detail :
  Api.requestToken_error_message parse_detail_body detail_body = JStr "Not authenticated".
Proof. reflexivity. Qed.

(** C6. On the reply 401 with the body [{"detail":"Not authenticated"}],
    [fetchLatestMetrics] sends its one request and rejects with an [Error]
    whose message is that body as it came, the JSON text, not the text of its
    [detail] property. *)
Theorem fetchLatestMetrics_keeps_json_body (JSON_parse : string -> option jsval) :
  Api.fetchLatestMetrics JSON_parse unauthorized "token" (Some 20) None []
  = (Rejected (ThrownError detail_body),
     [Api.mkRequest "/v1/metrics/latest" [("limit", "20")] "Bearer token"])
  /\ detail_body <> "Not authenticated".
Proof. split; [reflexivity | discriminate]. Qed.

End RefreshFacts.

(** ** The session state *)

Module SessionFacts.

Import LiveSession Channel Samples Diagnostics Observations.




(** C8 (amended). The state is one of [connecting], [connected],
    [disconnected], [error] at all times.  A signal decides the next state
    whatever the current one is: connect success gives [connected], disconnect
    [disconnected], a transport error [error]; media failures and diagnostics
    messages keep the state.  [connecting] is entered only by a press on
    Retry, which is offered in state [error] only, and which increases the
    attempt identifier by one. *)
Theorem session_signal_decides_state (s : Screen) (sig : Signal) :
  connectionState (step s sig) = target s sig
  /\ (forall sigs, connectionState (run s sigs)
                   ∈ [connecting; connected; disconnected; error])
  /\ (connectionState (step s sig) = connecting ->
      connectionState s <> connecting ->
      sig = PressRetry
      /\ connectionState s = error
      /\ connectKey (step s sig) = connectKey s + 1
      /\ errorMessage (step s sig) = None
      /\ mediaErrorMessage (step s sig) = None).
Proof.
  split_and!.
  - destruct sig as [| | |[f|]| |]; simpl; try done.
    by destruct (retry_rendered s).
  - intros sigs. destruct (connectionState (run s sigs)).
    + apply list_elem_of_here.
    + do 1 apply list_elem_of_further. apply list_elem_of_here.
    + do 2 apply list_elem_of_further. apply list_elem_of_here.
    + do 3 apply list_elem_of_further. apply list_elem_of_here.
  - destruct sig as [| | |[f|]| |]; simpl; intros Hto Hfrom; try congruence.
    revert Hto. unfold retry_rendered.
    destruct (connectionState s) eqn:Hstate; try congruence.
    destruct (errorMessage s) as [m|]; [|congruence].
    destruct (negb (String.eqb m "")); [done|congruence].
Qed.

Lemma session_signal_decides_state_witness :
  connectionState (step (onError "timeout" LiveSession.initial) PressRetry) = connecting
  /\ connectKey (step (onError "timeout" LiveSession.initial) PressRetry) = 1.
Proof.
  destruct (session_signal_decides_state (onError "timeout" LiveSession.initial) PressRetry)
    as [Htarget [_ Hretry]].
  split; [exact Htarget|].
  destruct (Hretry eq_refl) as [_ [_ [Hkey _]]]; [discriminate | exact Hkey].
Defined.

(** C8, as stated, fails: a disconnect while connecting leads from
    [connecting] to [disconnected], which is not among the transitions listed
    for [connecting]; and a connect success leaves [error] without any
    reconnect by the operator. *)
Lemma disconnect_while_connecting :
  connectionState LiveSession.initial = connecting
  /\ connectionState (step LiveSession.initial Disconnect) = disconnected
  /\ allowed_by_spec connecting Disconnect disconnected = false
  /\ connectionState (step (onError "timeout" LiveSession.initial) ConnectSuccess) = connected
  /\ allowed_by_spec error ConnectSuccess connected = false.
Proof. split_and!; reflexivity. Qed.

End SessionFacts.

(** ** More on the local metric store *)

Module StoreExtras.

Import MetricsStore Channel Samples StoreFacts.

Lemma ensure_db_memoryCache s : memoryCache (ensure_db s).2 = memoryCache s.
Proof.
  unfold ensure_db, initMetricsDb. destruct (db s) as [b|].
  - reflexivity.
  - destruct (sqlite_available s); simpl.
    + unfold sqlite_init, sql_create_table. simpl.
      by destruct (metrics_table s).
    + reflexivity.
Qed.

Lemma ensure_db_ready s : ready s -> ready (ensure_db s).2.
Proof.
  intros Hready. unfold ensure_db. destruct (db s) eqn:Hd; [done|].
  apply initMetricsDb_ready.
Qed.

(** What the guard leaves, in one statement. *)
Lemma ensure_db_spec s :
  exists s1, ensure_db s = (Resolved tt, s1)
    /\ db s1 = Some (backend s)
    /\ memoryCache s1 = memoryCache s
    /\ (ready s -> ready s1).
Proof.
  exists (ensure_db s).2. split_and!.
  - pose proof (ensure_db_resolved s). by destruct (ensure_db s) as [? ?]; simpl in *; subst.
  - apply ensure_db_db.
  - apply ensure_db_memoryCache.
  - apply ensure_db_ready.
Qed.

(** X1. On the memory backend the cache is a list read back from its front:
    after [storeMetrics] a load returns the stored readings in their order,
    cut by [slice(0, limit)]; after [addMetric] it returns the new reading in
    front of what was cached before, cut the same way. *)
Theorem memory_store_add_then_load (s : Store) (limit : option Z)
    (Hmemory : backend s = MemoryDb) :
  (forall metrics,
      (loadCachedMetrics limit (storeMetrics metrics s).2).1
      = Resolved (slice0 (default_limit limit) metrics))
  /\ (forall metric,
      (loadCachedMetrics limit (addMetric metric s).2).1
      = Resolved (slice0 (default_limit limit) (metric :: memoryCache s))).
Proof.
  destruct (ensure_db_spec s) as [s1 [Hguard [Hdb [Hcache _]]]].
  rewrite Hmemory in Hdb.
  split.
  - intros metrics. unfold storeMetrics, loadCachedMetrics, await.
    rewrite Hguard, Hdb. simpl. unfold ensure_db. simpl. rewrite Hdb. simpl.
    rewrite Hdb. done.
  - intros metric. unfold addMetric, loadCachedMetrics, await.
    rewrite Hguard, Hdb. simpl. unfold ensure_db. simpl. rewrite Hdb. simpl.
    rewrite Hdb. simpl. by rewrite Hcache.
Qed.

Lemma memory_store_add_then_load_witness :
  (loadCachedMetrics (Some 1)
     (storeMetrics [reading 1 70 "T0"; reading 2 80 "T1"] (fresh false)).2).1
  = Resolved [reading 1 70 "T0"]
  /\ (loadCachedMetrics None (addMetric (reading 2 80 "T1") store_after_one_add).2).1
     = Resolved [reading 2 80 "T1"; reading 1 70 "T0"].
Proof.
  split.
  - destruct (memory_store_add_then_load (fresh false) (Some 1) eq_refl) as [Hstore _].
    apply Hstore.
  - destruct (memory_store_add_then_load store_after_one_add None eq_refl) as [_ Hadd].
    apply Hadd.
Defined.

Lemma length_slice0_le {A} (n : Z) (l : list A) :
  0 <= n -> (length (slice0 n l) <= Z.to_nat n)%nat.
Proof.
  intros Hn. unfold slice0. destruct (n <? 0) eqn:Hneg.
  - apply Z.ltb_lt in Hneg. lia.
  - rewrite length_take. lia.
Qed.

Lemma length_sql_limit_le {A} (n : Z) (l : list A) :
  0 <= n -> (length (sql_limit n l) <= Z.to_nat n)%nat.
Proof.
  intros Hn. unfold sql_limit. destruct (n <? 0) eqn:Hneg.
  - apply Z.ltb_lt in Hneg. lia.
  - rewrite length_take. lia.
Qed.

(** X2. Whatever the backend and whatever the store holds, a load that
    resolves never returns more readings than the limit asked for (20 when
    none is given), for a limit that is not negative. *)
Theorem loadCachedMetrics_at_most_limit (s : Store) (limit : option Z)
    (cached : list jsval) (s' : Store)
    (Hlimit : 0 <= default_limit limit)
    (Hload : loadCachedMetrics limit s = (Resolved cached, s')) :
  (length cached <= Z.to_nat (default_limit limit))%nat.
Proof.
  destruct (ensure_db_spec s) as [s1 [Hguard [Hdb _]]].
  revert Hload. unfold loadCachedMetrics, await. rewrite Hguard, Hdb. simpl.
  destruct (backend s); simpl.
  - unfold sqlite_loadCachedMetrics, await, sql_select_latest.
    destruct (metrics_table s1); simpl; [|done].
    intros [= <- _]. rewrite length_map. by apply length_sql_limit_le.
  - intros [= <- _]. by apply length_slice0_le.
Qed.

Lemma loadCachedMetrics_at_most_limit_witness :
  (length (slice0 1 [reading 1 70 "T0"; reading 2 80 "T1"]) <= 1)%nat.
Proof.
  apply (loadCachedMetrics_at_most_limit
           (storeMetrics [reading 1 70 "T0"; reading 2 80 "T1"] (fresh false)).2
           (Some 1) _
           (storeMetrics [reading 1 70 "T0"; reading 2 80 "T1"] (fresh false)).2).
  - discriminate.
  - reflexivity.
Defined.

Lemma calls_backend cs s : backend (calls cs s) = backend s.
Proof.
  revert s. induction cs as [|c cs IH]; intros s; simpl; [done|].
  rewrite IH. unfold backend at 1. by rewrite call_db.
Qed.

(** X3. Where the SQLite module does not load, no exported call rejects:
    from a fresh process on, after any sequence of calls, the backend is the
    memory one, [initMetricsDb], [storeMetrics] and [addMetric] resolve, and
    [loadCachedMetrics] resolves with the front of the memory cache. *)
Theorem memory_backend_never_rejects (cs : list Call) :
  let s := calls cs (fresh false) in
  backend s = MemoryDb
  /\ (initMetricsDb s).1 = Resolved tt
  /\ (forall limit,
        (loadCachedMetrics limit s).1
        = Resolved (slice0 (default_limit limit) (memoryCache s)))
  /\ (forall metrics, (storeMetrics metrics s).1 = Resolved tt)
  /\ (forall metric, (addMetric metric s).1 = Resolved tt).
Proof.
  cbv zeta. set (s := calls cs (fresh false)).
  assert (Hmemory : backend s = MemoryDb) by (unfold s; by rewrite calls_backend).
  destruct (ensure_db_spec s) as [s1 [Hguard [Hdb [Hcache _]]]].
  rewrite Hmemory in Hdb. split_and!.
  - done.
  - unfold initMetricsDb. unfold backend in Hmemory.
    destruct (db s) as [b|]; [by subst b|].
    by destruct (sqlite_available s).
  - intros limit. unfold loadCachedMetrics, await. rewrite Hguard, Hdb. simpl.
    by rewrite Hcache.
  - intros metrics. unfold storeMetrics, await. by rewrite Hguard, Hdb.
  - intros metric. unfold addMetric, await. by rewrite Hguard, Hdb.
Qed.

End StoreExtras.

(** ** The SQLite backend *)

Module SqliteExtras.

Import MetricsStore Channel Samples Observations MoreSamples StoreFacts.

#[local] Existing Instance recorded_at_desc_dec.

#[local] Instance recorded_at_desc_total : Total recorded_at_desc.
Proof.
  intros [k1 r1] [k2 r2]. unfold recorded_at_desc, text_leb. simpl.
  destruct (row_recorded_at r1) eqn:H1, (row_recorded_at r2) eqn:H2; auto.
  destruct (String.leb_total s0 s); auto.
Qed.

Lemma Sorted_take {A} (R : relation A) n l : Sorted R l -> Sorted R (take n l).
Proof.
  intros Hl. revert n. induction Hl as [|x l Hl IH Hhd]; intros [|n]; simpl;
    try constructor.
  - apply IH.
  - destruct Hhd as [|y l' Hxy]; destruct n; simpl; constructor. done.
Qed.

Lemma Sorted_map {A B} (R : relation A) (R' : relation B) (f : A -> B) l :
  (forall a b, R a b -> R' (f a) (f b)) -> Sorted R l -> Sorted R' (map f l).
Proof.
  intros Hf Hl. induction Hl as [|x l Hl IH Hhd]; simpl; constructor; [done|].
  destruct Hhd; simpl; constructor. by apply Hf.
Qed.

Lemma sql_limit_sublist {A} n (l : list A) : sql_limit n l `sublist_of` l.
Proof. unfold sql_limit. destruct (n <? 0); [done | apply sublist_take]. Qed.

Lemma sql_limit_all {A} n (l : list A) :
  n < 0 \/ Z.of_nat (length l) <= n -> sql_limit n l = l.
Proof.
  intros Hn. unfold sql_limit. destruct (n <? 0) eqn:Hneg; [done|].
  apply Z.ltb_ge in Hneg. apply take_ge. lia.
Qed.

(** The rows a [SELECT] gives: sorted, with distinct keys, all from the
    table, and the whole table when the limit does not cut. *)
Lemma select_rows_spec (t : gmap Z Row) (limit : Z) :
  let rows := sql_limit limit (merge_sort recorded_at_desc (map_to_list t)) in
  Sorted recorded_at_desc rows
  /\ NoDup (rows.*1)
  /\ (forall k row, (k, row) ∈ rows -> t !! k = Some row)
  /\ (limit < 0 \/ Z.of_nat (size t) <= limit ->
      forall k row, t !! k = Some row -> (k, row) ∈ rows).
Proof.
  simpl. set (sorted := merge_sort recorded_at_desc (map_to_list t)).
  assert (Hperm : sorted ≡ₚ map_to_list t) by apply merge_sort_Permutation.
  split_and!.
  - unfold sql_limit. destruct (limit <? 0); [apply Sorted_merge_sort, _|].
    apply Sorted_take, Sorted_merge_sort, _.
  - eapply sublist_NoDup; [|apply fmap_sublist, sql_limit_sublist].
    rewrite Hperm. apply NoDup_fst_map_to_list.
  - intros k row Hin. apply elem_of_map_to_list. rewrite <- Hperm.
    eapply elem_of_sublist; [exact Hin | apply sql_limit_sublist].
  - intros Hall k row Hrow. rewrite sql_limit_all.
    + rewrite Hperm. by apply elem_of_map_to_list.
    + rewrite Hperm, length_map_to_list. done.
Qed.

(** X4. On the SQLite backend a load returns the rows of the table as
    objects, newest [recorded_at] first, no two with the same [id]; every
    object returned is a row of the table, and every row is returned when the
    limit is negative or at least the number of rows. *)
Theorem sqlite_load_sorted_distinct (s : Store) (t : gmap Z Row) (limit : option Z)
    (Hdb : db s = Some SqliteDb) (Ht : metrics_table s = Some t) :
  exists cached,
    loadCachedMetrics limit s = (Resolved cached, s)
    /\ Sorted newer_or_equal cached
    /\ NoDup (identities cached)
    /\ (forall m, m ∈ cached ->
          exists k row, t !! k = Some row /\ m = row_object (k, row))
    /\ (default_limit limit < 0 \/ Z.of_nat (size t) <= default_limit limit ->
        forall k row, t !! k = Some row -> row_object (k, row) ∈ cached).
Proof.
  destruct (select_rows_spec t (default_limit limit)) as [Hsorted [Hnodup [Hfrom Hall]]].
  set (rows := sql_limit (default_limit limit)
                 (merge_sort recorded_at_desc (map_to_list t))) in *.
  exists (map row_object rows). split_and!.
  - unfold loadCachedMetrics, await. rewrite (ensure_db_some s SqliteDb Hdb), Hdb.
    simpl. unfold sqlite_loadCachedMetrics, await, sql_select_latest. by rewrite Ht.
  - eapply Sorted_map; [|exact Hsorted]. by intros [k1 r1] [k2 r2].
  - unfold identities. rewrite map_map.
    replace (map (fun r => metric_id (row_object r)) rows) with (JNum <$> rows.*1).
    + apply NoDup_fmap_2; [|done]. by intros x y [= ->].
    + rewrite <- list_fmap_compose. done.
  - intros m Hm. apply list_elem_of_In, in_map_iff in Hm as [[k row] [<- Hin]].
    exists k, row. split; [|done]. apply Hfrom. by apply list_elem_of_In.
  - intros Hlimit k row Hrow. apply list_elem_of_In, in_map.
    apply list_elem_of_In. by apply Hall.
Qed.

Lemma metric_id_row_object r : metric_id (row_object r) = JNum r.1.
Proof. done. Qed.

(** A row of a well-typed reading read back is the reading, with [null] for
    an absent unit. *)
Lemma row_object_typed hm :
  row_object (Metric.id hm, row_params (Metric.to_js hm)) = Metric.to_js (with_unit hm).
Proof. destruct hm as [i type v [| |u] at_]; reflexivity. Qed.

(** X5. On the SQLite backend [addMetric] is an upsert by [id]: the table
    gets, under the reading's [id], the row of its columns [metric_type],
    [value], [unit] (or [null]) and [recorded_at], grows by one row only when
    the [id] was new, and keeps every other row.  A load that is not cut
    returns exactly one reading with that [id], the object of those columns;
    for a well-typed reading that is the reading itself, an absent unit
    coming back as [null]. *)
Theorem sqlite_addMetric_upserts (s : Store) (t : gmap Z Row) (metric : jsval) (k : Z)
    (Hdb : db s = Some SqliteDb) (Ht : metrics_table s = Some t)
    (Hid : get metric "id" = Some (JNum k)) :
  exists row,
    holds_columns_of metric row
    /\ (forall hm,
          metric = Metric.to_js hm ->
          row = mkRow (JStr (Metric.metric_type hm)) (JNum (Metric.value hm))
                      match Metric.unit hm with
                      | Metric.UnitText u => JStr u
                      | _ => JNull
                      end
                      (JStr (Metric.recorded_at hm))
          /\ row_object (k, row) = Metric.to_js (with_unit hm))
    /\ let t' := <[k := row]> t in
       let s' := set_metrics_table (Some t') s in
       addMetric metric s = (Resolved tt, s')
       /\ size t' = match t !! k with Some _ => size t | None => S (size t) end
       /\ (forall j, j <> k -> t' !! j = t !! j)
       /\ (forall limit cached,
             default_limit limit < 0 \/ Z.of_nat (size t') <= default_limit limit ->
             (loadCachedMetrics limit s').1 = Resolved cached ->
             row_object (k, row) ∈ cached
             /\ forall m, m ∈ cached -> metric_id m = JNum k ->
                          m = row_object (k, row)).
Proof.
  exists (row_params metric). split_and!.
  - by apply row_params_columns.
  - intros hm ->. rewrite get_id_typed in Hid. injection Hid as <-. split.
    + rewrite row_params_typed.
      by destruct (Metric.unit hm) eqn:Hunit; unfold typed_row; rewrite Hunit.
    + apply row_object_typed.
  - simpl. split_and!.
    + unfold addMetric, await. rewrite (ensure_db_some s SqliteDb Hdb), Hdb. simpl.
      unfold sqlite_addMetric, sql_insert_or_replace. by rewrite Hid, Ht.
    + destruct (t !! k) eqn:Hk.
      * by apply map_size_insert_Some.
      * by apply map_size_insert_None.
    + intros j Hj. by apply lookup_insert_ne.
    + intros limit cached Hlimit.
      destruct (select_rows_spec (<[k := row_params metric]> t) (default_limit limit))
        as [_ [_ [Hfrom Hall]]].
      unfold loadCachedMetrics, await, ensure_db. simpl. rewrite Hdb. simpl.
      rewrite Hdb. simpl.
      unfold sqlite_loadCachedMetrics, await, sql_select_latest. simpl.
      intros [= <-]. split.
      * apply list_elem_of_In, in_map, list_elem_of_In, Hall; [done|].
        apply lookup_insert_eq.
      * intros m Hm Hmid.
        apply list_elem_of_In, in_map_iff in Hm as [[k' row'] [<- Hin]].
        rewrite metric_id_row_object in Hmid. simpl in Hmid. injection Hmid as ->.
        apply list_elem_of_In, Hfrom in Hin. rewrite lookup_insert_eq in Hin.
        by injection Hin as <-.
Qed.

Lemma sqlite_insert_each_app pre rest s :
  Forall numeric_id pre ->
  is_Some (metrics_table s) ->
  (sqlite_insert_each pre s).1 = Resolved tt
  /\ sqlite_insert_each (pre ++ rest) s
     = sqlite_insert_each rest (sqlite_insert_each pre s).2.
Proof.
  intros Hnum. revert s. induction Hnum as [|m pre [k Hk] Hnum IH]; intros s [t Ht].
  - done.
  - simpl. unfold await, sql_insert_or_replace. rewrite Hk, Ht.
    apply IH. simpl. by eexists.
Qed.

(** X6. On the SQLite backend [storeMetrics] is not atomic: when an entry
    of the list is [null] or [undefined] (reading its [id] throws), the call
    rejects with that TypeError after the old rows were deleted and the
    entries before it were written; the store is left as if only those had
    been stored. *)
Theorem sqlite_storeMetrics_stops_at_null (s : Store) (pre post : list jsval)
    (bad : jsval)
    (Hsqlite : backend s = SqliteDb) (Hready : ready s)
    (Hnum : Forall numeric_id pre) (Hbad : get bad "id" = None) :
  (storeMetrics pre s).1 = Resolved tt
  /\ storeMetrics (pre ++ bad :: post) s
     = (Rejected type_error, (storeMetrics pre s).2).
Proof.
  pose proof (ensure_db_db s) as Hdb. rewrite Hsqlite in Hdb.
  pose proof (ensure_db_resolved s) as Hres.
  assert (Htable : is_Some (metrics_table (ensure_db s).2)).
  { unfold backend in Hsqlite. unfold ensure_db. destruct (db s) as [b|] eqn:Hd.
    - apply Hready. by rewrite Hd, Hsqlite.
    - apply initMetricsDb_ready. rewrite initMetricsDb_db. unfold backend.
      by rewrite Hd, Hsqlite. }
  unfold storeMetrics, await.
  destruct (ensure_db s) as [[[]|e] s1]; simpl in *; [|done].
  rewrite Hdb. simpl. unfold sqlite_storeMetrics, await, sql_delete_all.
  destruct Htable as [t0 ->].
  set (s2 := set_metrics_table (Some ∅) s1).
  destruct (sqlite_insert_each_app pre (bad :: post) s2 Hnum) as [Hpre Happ];
    [by eexists|].
  rewrite Happ. split; [done|].
  destruct (sqlite_insert_each pre s2) as [o s3]. simpl in *. subst o.
  unfold await, sql_insert_or_replace. by rewrite Hbad.
Qed.

Lemma sqlite_load_sorted_distinct_witness :
  exists cached,
    loadCachedMetrics (Some 20) sqlite_store_two = (Resolved cached, sqlite_store_two)
    /\ NoDup (identities cached)
    /\ row_object (2, row_params (reading 2 80 "T1")) ∈ cached.
Proof.
  destruct (sqlite_load_sorted_distinct sqlite_store_two table_two (Some 20)
              eq_refl eq_refl) as [cached [Hload [_ [Hnodup [_ Hall]]]]].
  exists cached. split; [exact Hload|]. split; [exact Hnodup|].
  apply Hall; [right; discriminate | reflexivity].
Defined.

Lemma sqlite_addMetric_upserts_witness :
  exists t',
    addMetric (reading 2 85 "T2") sqlite_store_two
    = (Resolved tt, set_metrics_table (Some t') sqlite_store_two)
    /\ t' !! 2 = Some (mkRow (JStr "heart_rate") (JNum 85) JNull (JStr "T2"))
    /\ size t' = size table_two.
Proof.
  destruct (sqlite_addMetric_upserts sqlite_store_two table_two (reading 2 85 "T2") 2
              eq_refl eq_refl eq_refl) as [row [_ [Htyped [Hadd [Hsize _]]]]].
  destruct (Htyped (Metric.mkHealthMetric 2 "heart_rate" 85 Metric.UnitAbsent "T2")
              eq_refl) as [-> _].
  eexists. split; [exact Hadd|]. split; [apply lookup_insert_eq | exact Hsize].
Defined.

Lemma sqlite_storeMetrics_stops_at_null_witness :
  storeMetrics ([reading 1 70 "T0"] ++ JNull :: [reading 2 80 "T1"]) sqlite_store_two
  = (Rejected type_error, (storeMetrics [reading 1 70 "T0"] sqlite_store_two).2).
Proof.
  destruct (sqlite_storeMetrics_stops_at_null sqlite_store_two [reading 1 70 "T0"]
              [reading 2 80 "T1"] JNull eq_refl) as [_ Hstop].
  - intros _. eexists. reflexivity.
  - repeat constructor. eexists. reflexivity.
  - reflexivity.
  - exact Hstop.
Defined.

End SqliteExtras.

(** ** More on the channel, the refresh and the session *)

Module ScreenExtras.

Import MetricsStore LiveSession Channel Samples Observations StoreFacts ViewFacts StoreExtras.

Lemma backend_call c s : backend (call c s) = backend s.
Proof. unfold backend at 1. by rewrite call_db. Qed.

(** What any parsed payload does to the view: the three cases of the
    handler. *)
Lemma view_after_payload payload a :
  metrics (screen (onmessage_parsed (Some payload) a))
  = if is_snapshot payload then snapshot_data payload
    else if is_incremental payload then take 50 (payload :: metrics (screen a))
    else metrics (screen a).
Proof.
  destruct (is_snapshot payload) eqn:Hsnap.
  - by apply view_snapshot.
  - destruct (is_incremental payload) eqn:Hinc.
    + by apply view_incremental.
    + unfold is_incremental in Hinc. rewrite Hsnap in Hinc. simpl in Hinc.
      by rewrite onmessage_other.
Qed.

(** What any parsed payload does to the store: a call of [storeMetrics], a
    call of [addMetric], or nothing. *)
Lemma store_after_payload payload a :
  store (onmessage_parsed (Some payload) a)
  = if is_snapshot payload then call (CallStore (snapshot_data payload)) (store a)
    else if is_incremental payload then call (CallAdd payload) (store a)
    else store a.
Proof.
  destruct (is_snapshot payload) eqn:Hsnap.
  - by rewrite onmessage_snapshot.
  - destruct (is_incremental payload) eqn:Hinc.
    + by rewrite onmessage_incremental.
    + unfold is_incremental in Hinc. rewrite Hsnap in Hinc. simpl in Hinc.
      by rewrite onmessage_other.
Qed.

(** X7. Whatever the channel delivers (snapshots, readings, values of
    neither shape, in any order), the view never has more than 50 entries,
    provided it started with at most 50 and no snapshot carried more than
    50. *)
Theorem view_stays_within_50 (payloads : list jsval) (a : App)
    (Hsnapshots : Forall (fun p => is_snapshot p = true ->
                                   (length (snapshot_data p) <= 50)%nat) payloads)
    (Hview : (length (metrics (screen a)) <= 50)%nat) :
  (length (metrics (screen (deliver payloads a))) <= 50)%nat.
Proof.
  revert a Hview. induction Hsnapshots as [|p ps Hp Hps IH]; intros a Hview.
  - by rewrite deliver_nil.
  - rewrite deliver_cons. apply IH. rewrite view_after_payload.
    destruct (is_snapshot p); [by apply Hp|].
    destruct (is_incremental p); [|done].
    rewrite length_take. lia.
Qed.

Lemma view_stays_within_50_witness :
  (length (metrics (screen (deliver (fifty_one ++ [snapshot_message [reading 1 70 "T0"]; JNull])
                                    (app0 false)))) <= 50)%nat.
Proof.
  apply view_stays_within_50.
  - apply Forall_app. split.
    + apply Forall_forall. intros p Hp. unfold fifty_one in Hp.
      apply list_elem_of_In, in_map_iff in Hp as [i [<- _]]. discriminate.
    + repeat constructor; simpl; lia.
  - simpl. lia.
Defined.

Lemma take_50_cons {A} (x : A) (l k : list A) :
  take 50 l = take 50 k -> take 50 (take 50 (x :: l)) = take 50 (x :: k).
Proof.
  intros Heq. rewrite take_take. simpl. f_equal.
  assert (H49 : take 49 (take 50 l) = take 49 (take 50 k)) by (by rewrite Heq).
  by rewrite !take_take in H49.
Qed.

Lemma addMetric_memory metric s :
  backend s = MemoryDb -> memoryCache (addMetric metric s).2 = metric :: memoryCache s.
Proof.
  intros Hmemory. pose proof (ensure_db_memoryCache s) as Hcache.
  through_guard s. rewrite Hmemory. simpl. by rewrite Hcache.
Qed.

(** X8. On the memory backend the cache follows the view: if the first 50
    entries of view and cache agree, they still agree after any run of
    channel messages, and [loadCachedMetrics(20)] then returns the first 20
    entries of the view. *)
Theorem memory_cache_mirrors_view (payloads : list jsval) (a : App)
    (Hmemory : backend (store a) = MemoryDb)
    (Hmirror : take 50 (metrics (screen a)) = take 50 (memoryCache (store a))) :
  let a' := deliver payloads a in
  take 50 (metrics (screen a')) = take 50 (memoryCache (store a'))
  /\ (loadCachedMetrics (Some 20) (store a')).1
     = Resolved (take 20 (metrics (screen a'))).
Proof.
  simpl.
  assert (Hinv : backend (store (deliver payloads a)) = MemoryDb
                 /\ take 50 (metrics (screen (deliver payloads a)))
                    = take 50 (memoryCache (store (deliver payloads a)))).
  { revert a Hmemory Hmirror. induction payloads as [|p ps IH]; intros a Hmemory Hmirror.
    - by rewrite deliver_nil.
    - rewrite deliver_cons. apply IH.
      + rewrite store_after_payload.
        destruct (is_snapshot p); [by rewrite backend_call|].
        destruct (is_incremental p); [by rewrite backend_call | done].
      + rewrite view_after_payload, store_after_payload.
        destruct (is_snapshot p).
        * simpl. by rewrite storeMetrics_memory.
        * destruct (is_incremental p); [|done]. simpl.
          rewrite addMetric_memory by done. by apply take_50_cons. }
  destruct Hinv as [Hmem Hinv]. split; [done|].
  destruct (StoreExtras.ensure_db_spec (store (deliver payloads a)))
    as [s1 [Hguard [Hdb [Hcache _]]]].
  unfold loadCachedMetrics, await. rewrite Hguard, Hdb, Hmem. simpl.
  rewrite Hcache. rewrite (slice0_take 20).
  assert (H20 : take 20 (take 50 (metrics (screen (deliver payloads a))))
                = take 20 (take 50 (memoryCache (store (deliver payloads a)))))
    by (by rewrite Hinv).
  rewrite !take_take in H20. by f_equal.
Qed.

Lemma memory_cache_mirrors_view_witness :
  (loadCachedMetrics (Some 20)
     (store (deliver [snapshot_message [reading 1 70 "T0"]; reading 2 80 "T1"]
                     (app0 false)))).1
  = Resolved [reading 2 80 "T1"; reading 1 70 "T0"].
Proof.
  destruct (memory_cache_mirrors_view
              [snapshot_message [reading 1 70 "T0"]; reading 2 80 "T1"] (app0 false)
              eq_refl eq_refl) as [_ Hload].
  exact Hload.
Defined.

Lemma typed_reading_shape (m : Metric.HealthMetric) :
  is_snapshot (Metric.to_js m) = false
  /\ get_opt (Metric.to_js m) "metric_type" = JStr (Metric.metric_type m)
  /\ metric_id (Metric.to_js m) = JNum (Metric.id m).
Proof. by destruct m as [i k v [| |u] r]. Qed.

(** X9. A well-typed reading is handled by its [metric_type]: with an empty
    one the message changes nothing, otherwise the reading goes in front of
    the view and to [addMetric]; its identity in the view is the number
    [id]. *)
Theorem typed_reading_needs_metric_type (m : Metric.HealthMetric) (a : App) :
  metric_id (Metric.to_js m) = JNum (Metric.id m)
  /\ onmessage_parsed (Some (Metric.to_js m)) a
     = if String.eqb (Metric.metric_type m) "" then a
       else fire_and_forget (addMetric (Metric.to_js m))
              (on_screen (fun s => setMetrics (take 50 (Metric.to_js m :: metrics s)) s) a).
Proof.
  destruct (typed_reading_shape m) as [Hsnap [Hkind Hid]]. split; [done|].
  destruct (String.eqb (Metric.metric_type m) "") eqn:Hempty.
  - apply onmessage_other; [done|]. rewrite Hkind. simpl. by rewrite Hempty.
  - apply onmessage_incremental. unfold is_incremental.
    rewrite Hsnap, Hkind. simpl. by rewrite Hempty.
Qed.

Lemma loadCachedMetrics_memory limit s :
  backend s = MemoryDb -> exists cached, (loadCachedMetrics limit s).1 = Resolved cached.
Proof.
  intros Hmemory. destruct (ensure_db_spec s) as [s1 [Hguard [Hdb _]]].
  rewrite Hmemory in Hdb. unfold loadCachedMetrics, await. rewrite Hguard, Hdb.
  simpl. eauto.
Qed.

Lemma storeMetrics_memory_resolved metrics s :
  backend s = MemoryDb ->
  (storeMetrics metrics s).1 = Resolved tt /\ backend (storeMetrics metrics s).2 = MemoryDb.
Proof.
  intros Hmemory. split.
  - destruct (ensure_db_spec s) as [s1 [Hguard [Hdb _]]].
    rewrite Hmemory in Hdb. unfold storeMetrics, await. by rewrite Hguard, Hdb.
  - change (storeMetrics metrics s).2 with (call (CallStore metrics) s).
    by rewrite backend_call.
Qed.

(** The outcome of the [catch] block is that of its cache read. *)
Lemma loadMetrics_catch_outcome n err a :
  (loadMetrics_catch n err a).1
  = if Nat.eqb n 0
    then match (loadCachedMetrics (Some 20) (store a)).1 with
         | Resolved _ => Resolved tt
         | Rejected e => Rejected e
         end
    else Resolved tt.
Proof.
  unfold loadMetrics_catch. destruct (Nat.eqb n 0); [|done]. simpl.
  destruct (loadCachedMetrics (Some 20) (store a)) as [[cached|e] st]; [|done].
  simpl. by destruct (Nat.ltb 0 (length cached)).
Qed.

Lemma loadMetrics_catch_cells n err a :
  metricsError (screen (loadMetrics_catch n err a).2) = Some (error_message_of err)
  /\ metricsLoading (screen (loadMetrics_catch n err a).2) = metricsLoading (screen a).
Proof.
  unfold loadMetrics_catch. destruct (Nat.eqb n 0); [|done]. simpl.
  destruct (loadCachedMetrics (Some 20) (store a)) as [[cached|e] st]; [|done].
  simpl. by destruct (Nat.ltb 0 (length cached)).
Qed.

(** X10. [loadMetrics] without a token changes nothing.  With a token it
    ends with the loading flag off whether it resolves or rejects, and the
    sync error is clear exactly when the fetch resolved and [storeMetrics]
    resolved too.  Its only unguarded call is the cache read of the [catch]
    block: it rejects exactly when the fetch or [storeMetrics] failed, the
    callback closed over an empty view, and [loadCachedMetrics(20)] rejects,
    and then with that error.  On the memory backend it always resolves. *)
Theorem loadMetrics_rejects_with_the_cache_read (metrics_length : nat)
    (token : option string) (fetched : outcome (list jsval)) (a : App) :
  let result := loadMetrics metrics_length token fetched a in
  (has_token token = false -> result = (Resolved tt, a))
  /\ (has_token token = true ->
      metricsLoading (screen result.2) = false
      /\ (metricsError (screen result.2) = None
          <-> exists latest, fetched = Resolved latest
                /\ (storeMetrics latest (store a)).1 = Resolved tt)
      /\ (forall e,
            result.1 = Rejected e
            <-> metrics_length = 0%nat
                /\ exists st,
                     ((exists err, fetched = Rejected err /\ st = store a)
                      \/ (exists latest err,
                            fetched = Resolved latest
                            /\ storeMetrics latest (store a) = (Rejected err, st)))
                     /\ (loadCachedMetrics (Some 20) st).1 = Rejected e)
      /\ (backend (store a) = MemoryDb -> result.1 = Resolved tt)).
Proof.
  cbv zeta. unfold loadMetrics. destruct (has_token token); simpl.
  2: { split; [done | intros Hf; discriminate Hf]. }
  split; [intros Hf; discriminate Hf | intros _].
  destruct fetched as [latest|err].
  - destruct (storeMetrics latest (store a)) as [[[]|err] st] eqn:Hstore; simpl.
    + split_and!; [done | | |done].
      * split; [|done]. intros _. exists latest. by rewrite Hstore.
      * intros e. split; [done|].
        intros [_ [st' [[[err [Hf _]] | [latest' [err [[= <-] Hs]]]] _]]]; [done|].
        rewrite Hstore in Hs. discriminate Hs.
    + set (a1 := mkApp _ st).
      pose proof (loadMetrics_catch_outcome metrics_length err a1) as Hout.
      destruct (loadMetrics_catch_cells metrics_length err a1) as [Herr _].
      destruct (loadMetrics_catch metrics_length err a1) as [o a2]. simpl in *.
      split_and!; [done | | |].
      * rewrite Herr. split; [done|].
        intros [latest' [[= <-] Hok]]. rewrite Hstore in Hok. discriminate Hok.
      * intros e. subst o. split.
        -- destruct (Nat.eqb_spec metrics_length 0) as [->|Hne]; [|done].
           intros Hrej. split; [done|]. exists st. split.
           ++ right. by exists latest, err.
           ++ destruct (loadCachedMetrics (Some 20) st).1; [done | congruence].
        -- intros [-> [st' [[[err' [Hf _]] | [latest' [err' [[= <-] Hs]]]] Hload]]];
             [done|].
           rewrite Hstore in Hs. injection Hs as _ <-. simpl. by rewrite Hload.
      * intros Hmemory.
        destruct (storeMetrics_memory_resolved latest (store a) Hmemory) as [Hres _].
        rewrite Hstore in Hres. discriminate Hres.
  - set (a1 := on_screen _ _).
    pose proof (loadMetrics_catch_outcome metrics_length err a1) as Hout.
    destruct (loadMetrics_catch_cells metrics_length err a1) as [Herr _].
    destruct (loadMetrics_catch metrics_length err a1) as [o a2]. simpl in *.
    split_and!; [done | | |].
    + rewrite Herr. split; [done|]. by intros [latest' [? _]].
    + intros e. subst o. split.
      * destruct (Nat.eqb_spec metrics_length 0) as [->|Hne]; [|done].
        intros Hrej. split; [done|]. exists (store a). split.
        -- left. by exists err.
        -- destruct (loadCachedMetrics (Some 20) (store a)).1; [done | congruence].
      * intros [-> [st' [[[err' [_ ->]] | [latest' [err' [Hf _]]]] Hload]]]; [|done].
        simpl. by rewrite Hload.
    + intros Hmemory. subst o.
      destruct (Nat.eqb metrics_length 0); [|done].
      by destruct (loadCachedMetrics_memory (Some 20) (store a) Hmemory) as [cached ->].
Qed.

(** X11. The metrics side and the session side of the screen are separate:
    no channel message and no refresh changes the connection state, the
    error message, the media advisory or the attempt counter, and no session
    signal changes the view, the sync error or the loading flag. *)
Theorem metrics_and_session_do_not_mix :
  (forall parsed a,
      session_cells (screen (onmessage_parsed parsed a)) = session_cells (screen a))
  /\ (forall metrics_length token fetched a,
      session_cells (screen (loadMetrics metrics_length token fetched a).2)
      = session_cells (screen a))
  /\ (forall s sig, metric_cells (step s sig) = metric_cells s).
Proof.
  split_and!.
  - intros [payload|] a; [|done]. unfold onmessage_parsed, onmessage_payload.
    destruct (get payload "type") as [type|]; [|done].
    destruct (strict_eq_str type "snapshot"), (get_opt payload "data");
      try done; by destruct (truthy (get_opt payload "metric_type")).
  - intros n token fetched a. unfold loadMetrics.
    destruct (has_token token); [|done]. simpl.
    destruct fetched as [latest|err].
    + destruct (storeMetrics latest (store a)) as [[[]|err] st]; [done|].
      unfold loadMetrics_catch. destruct (n =? 0)%nat; [|done]. simpl.
      destruct (loadCachedMetrics (Some 20) st) as [[cached|e] st']; [|done].
      by destruct (0 <? length cached)%nat.
    + unfold loadMetrics_catch. destruct (n =? 0)%nat; [|done]. simpl.
      destruct (loadCachedMetrics (Some 20) (store a)) as [[cached|e] st']; [|done].
      by destruct (0 <? length cached)%nat.
  - intros s [| | |[f|]| |]; try done. simpl. by destruct (retry_rendered s).
Qed.

Lemma step_message_fits_state s sig :
  message_fits_state s -> message_fits_state (step s sig).
Proof.
  unfold message_fits_state.
  destruct sig as [| | |[f|]| |]; simpl; try done.
  by destruct (retry_rendered s).
Qed.

Lemma run_snoc s sigs sig : run s (sigs ++ [sig]) = step (run s sigs) sig.
Proof. unfold run. by rewrite fold_left_app. Qed.

(** X12. From the initial screen, after any run of signals, the error
    message is the one of the connection state: none while connecting or
    connected, the disconnect text while disconnected, some message in state
    error.  So whenever the Retry button is offered the state is error and
    the message shown is not empty. *)
Theorem error_message_follows_state (sigs : list Signal) :
  message_fits_state (run LiveSession.initial sigs)
  /\ (retry_rendered (run LiveSession.initial sigs) = true ->
      exists message,
        connectionState (run LiveSession.initial sigs) = error
        /\ errorMessage (run LiveSession.initial sigs) = Some message
        /\ message <> "").
Proof.
  split.
  - induction sigs as [|sig sigs IH] using rev_ind; [done|].
    rewrite run_snoc. by apply step_message_fits_state.
  - unfold retry_rendered.
    destruct (connectionState (run LiveSession.initial sigs)); try done.
    destruct (errorMessage (run LiveSession.initial sigs)) as [m|]; [|done].
    intros Hm. exists m. split_and!; try done.
    intros ->. done.
Qed.

Lemma step_attempts s sig :
  connectKey s <= connectKey (step s sig)
  /\ connectKey (step s sig) + retry_weight (step s sig)
     <= connectKey s + retry_weight s + (if has_message sig then 1 else 0).
Proof.
  unfold retry_weight.
  destruct sig as [| |m|[f|]| |]; simpl.
  - destruct (retry_rendered s); lia.
  - destruct (retry_rendered s); lia.
  - unfold retry_rendered at 1. simpl.
    destruct (negb (String.eqb m "")), (retry_rendered s); lia.
  - change (retry_rendered (setMediaErrorMessage _ s)) with (retry_rendered s).
    destruct (retry_rendered s); lia.
  - destruct (retry_rendered s); lia.
  - destruct (retry_rendered s) eqn:Hr; [|rewrite Hr; lia].
    unfold retry_rendered at 1. simpl. lia.
  - change (retry_rendered (setMediaErrorMessage _ s)) with (retry_rendered s).
    destruct (retry_rendered s); lia.
Qed.

Lemma run_attempts sigs s :
  connectKey s <= connectKey (run s sigs)
  /\ connectKey (run s sigs) + retry_weight (run s sigs)
     <= connectKey s + retry_weight s + errors_with_message sigs.
Proof.
  revert s. induction sigs as [|sig sigs IH]; intros s.
  - simpl. lia.
  - change (run s (sig :: sigs)) with (run (step s sig) sigs).
    destruct (IH (step s sig)) as [Hmono Hbound].
    destruct (step_attempts s sig) as [Hmono1 Hbound1].
    simpl. lia.
Qed.

(** X13. The attempt counter starts at 0, never decreases, and after any run
    of signals is at most the number of transport errors with a message in
    the run: each Retry uses up one error.  Pressing Retry twice in a row is
    pressing it once. *)
Theorem attempts_bounded_by_errors (sigs : list Signal) :
  0 <= connectKey (run LiveSession.initial sigs) <= errors_with_message sigs
  /\ (forall s, step (step s PressRetry) PressRetry = step s PressRetry).
Proof.
  split.
  - destruct (run_attempts sigs LiveSession.initial) as [Hmono Hbound].
    unfold retry_weight in Hbound. simpl in *.
    destruct (retry_rendered (run LiveSession.initial sigs)); lia.
  - intros s. simpl. destruct (retry_rendered s) eqn:Hr; [|by rewrite Hr].
    done.
Qed.

End ScreenExtras.

(** ** The glucose screen and the media diagnostics *)

Module GlucoseExtras.

Import Glucose.

(** X14. The badge colour of the glucose card and the status text of the
    screen use different thresholds.  They agree below 70 (red, "Low"); the
    badge is green exactly on the range 70 to 180 that the statistics count
    as in range; an orange badge always reads "Very High"; and at exactly 180
    the badge is green while the text reads "Very High", the only value
    where that happens. *)
Theorem status_text_and_colour (v : Z) :
  (getStatusColor v = "#EB5757" <-> getStatusText v = "Low")
  /\ (getStatusColor v = "#27AE60" <-> in_range v = true)
  /\ (getStatusColor v = "#F2994A" -> getStatusText v = "Very High")
  /\ (getStatusText v = "Very High" /\ getStatusColor v = "#27AE60" <-> v = 180)
  /\ (forall values,
        inRangeCount values
        = length (List.filter (fun x => String.eqb (getStatusColor x) "#27AE60") values)).
Proof.
  assert (Hgreen : forall x, in_range x = String.eqb (getStatusColor x) "#27AE60").
  { intros x. unfold getStatusColor, in_range.
    destruct (Z.ltb_spec x 70), (Z.gtb_spec x 180), (Z.geb_spec x 70),
      (Z.leb_spec x 180); simpl; first [reflexivity | lia]. }
  assert (Hred : getStatusColor v = "#EB5757" <-> getStatusText v = "Low").
  { unfold getStatusColor, getStatusText.
    destruct (Z.ltb_spec v 70), (Z.gtb_spec v 180), (Z.ltb_spec v 100),
      (Z.ltb_spec v 140), (Z.ltb_spec v 180);
      split; intros; first [reflexivity | lia | congruence]. }
  assert (Hrange : getStatusColor v = "#27AE60" <-> in_range v = true).
  { unfold getStatusColor, in_range.
    destruct (Z.ltb_spec v 70), (Z.gtb_spec v 180), (Z.geb_spec v 70),
      (Z.leb_spec v 180); simpl;
      split; intros; first [reflexivity | lia | congruence]. }
  assert (Horange : getStatusColor v = "#F2994A" -> getStatusText v = "Very High").
  { unfold getStatusColor, getStatusText.
    destruct (Z.ltb_spec v 70), (Z.gtb_spec v 180), (Z.ltb_spec v 100),
      (Z.ltb_spec v 140), (Z.ltb_spec v 180);
      intros; first [reflexivity | lia | congruence]. }
  assert (Hedge : getStatusText v = "Very High" /\ getStatusColor v = "#27AE60"
                  <-> v = 180).
  { unfold getStatusColor, getStatusText.
    destruct (Z.ltb_spec v 70), (Z.gtb_spec v 180), (Z.ltb_spec v 100),
      (Z.ltb_spec v 140), (Z.ltb_spec v 180);
      (split; [intros [Htext Hcolour] | intros Hv; split]);
      first [reflexivity | lia | congruence]. }
  refine (conj Hred (conj Hrange (conj Horange (conj Hedge _)))).
  intros values. unfold inRangeCount. f_equal.
  induction values as [|x values IH]; simpl; [done|].
  rewrite <- Hgreen. by rewrite IH.
Qed.

Lemma slice_last_app_one {A} (n : nat) (l : list A) (x : A) :
  (slice_last n l ++ [x])%list = slice_last (S n) (l ++ [x]).
Proof.
  unfold slice_last. rewrite length_app. simpl.
  replace (length l + 1 - S n)%nat with (length l - n)%nat by lia.
  rewrite drop_app_le by lia. done.
Qed.

Lemma slice_last_slice_last {A} (n m : nat) (l : list A) :
  (n <= m)%nat -> slice_last n (slice_last m l) = slice_last n l.
Proof.
  intros Hnm. unfold slice_last. rewrite drop_drop, length_drop. f_equal. lia.
Qed.

Lemma length_slice_last {A} (n : nat) (l : list A) :
  length (slice_last n l) = Nat.min n (length l).
Proof. unfold slice_last. rewrite length_drop. lia. Qed.

Lemma record_all_slice ticks l :
  record_all ticks (slice_last 97 l) = slice_last 97 (l ++ readings_of ticks).
Proof.
  revert l. induction ticks as [|tick ticks IH]; intros l.
  - simpl. by rewrite app_nil_r.
  - change (record_all (tick :: ticks) (slice_last 97 l))
      with (record_all ticks (push_reading tick.1 tick.2 (slice_last 97 l))).
    unfold push_reading. rewrite slice_last_slice_last by lia.
    rewrite slice_last_app_one, IH. simpl. by rewrite <- app_assoc.
Qed.

(** X15. After at least one tick the glucose history is the last 97
    readings of everything recorded (the initial history followed by one
    reading per tick, in order), so it never has more than 97 entries, and
    the sparkline shows the values of the last 24. *)
Theorem history_is_the_last_97 (ticks : list (Z * Z)) (history : list GlucoseReading)
    (Hticks : ticks <> []) :
  record_all ticks history = slice_last 97 (history ++ readings_of ticks)
  /\ (length (record_all ticks history) <= 97)%nat
  /\ sparkData (record_all ticks history)
     = map value (slice_last 24 (history ++ readings_of ticks)).
Proof.
  assert (Hall : record_all ticks history
                 = slice_last 97 (history ++ readings_of ticks)).
  { destruct ticks as [|tick ticks]; [done|].
    change (record_all (tick :: ticks) history)
      with (record_all ticks (push_reading tick.1 tick.2 history)).
    unfold push_reading. rewrite slice_last_app_one, record_all_slice.
    simpl. by rewrite <- app_assoc. }
  split_and!.
  - done.
  - rewrite Hall, length_slice_last. lia.
  - unfold sparkData. rewrite Hall. by rewrite slice_last_slice_last by lia.
Qed.

Lemma history_is_the_last_97_witness :
  record_all [(1000, 112); (4000, 115)] [mkGlucoseReading 0 110]
  = [mkGlucoseReading 0 110; mkGlucoseReading 1000 112; mkGlucoseReading 4000 115].
Proof.
  destruct (history_is_the_last_97 [(1000, 112); (4000, 115)] [mkGlucoseReading 0 110])
    as [Hall _]; [discriminate|].
  rewrite Hall. reflexivity.
Defined.

End GlucoseExtras.

Module DiagnosticsExtras.

Import LiveSession Diagnostics.

Lemma after_snoc events e : after (events ++ [e]) = on_event (after events) e.
Proof. unfold after. by rewrite fold_left_app. Qed.

Lemma last_effect_snoc events e :
  last_effect (events ++ [e])
  = match e with
    | EffectRuns isCameraEnabled live => Some (isCameraEnabled, live)
    | TimerFires => last_effect events
    end.
Proof.
  induction events as [|e' events IH]; simpl.
  - by destruct e.
  - rewrite IH. destruct e; [done|]. done.
Qed.

(** X16. The camera notice of [MediaDiagnostics] is up, or its timer armed,
    only when the effect last ran with the camera enabled and no live frame:
    disabling the camera or a live frame clears the notice and cancels the
    timer.  The notice is always the one fixed text.  A media-device failure
    puts up the warning card whichever writer reports it, the LiveKit
    callback or the diagnostics component. *)
Theorem camera_notice_only_without_frames (events : list Event) :
  (cameraStatusMessage (after events) <> None \/ timer_armed (after events) = true ->
   last_effect events = Some (true, false))
  /\ (forall text, cameraStatusMessage (after events) = Some text ->
                   text = no_frames_text)
  /\ (forall f s,
        warning_rendered (onMediaDeviceFailure (Some f) s) = true
        /\ warning_rendered
             (setMediaErrorMessage (reported (Some f) (after events)) s) = true).
Proof.
  split_and!.
  - induction events as [|e events IH] using rev_ind.
    + intros [Hmsg|Harmed]; done.
    + rewrite after_snoc, last_effect_snoc.
      destruct e as [[] []|]; simpl; try (intros [Hmsg|Harmed]; done).
      destruct (timer_armed (after events)) eqn:Harmed.
      * intros _. apply IH. by right.
      * intros [Hmsg|Hf]; [|congruence]. apply IH. by left.
  - induction events as [|e events IH] using rev_ind; [done|].
    rewrite after_snoc. destruct e as [[] []|]; simpl; try done.
    destruct (timer_armed (after events)); simpl; [|done].
    by intros text [= <-].
  - intros f s. by destruct f.
Qed.

End DiagnosticsExtras.

(** ** The network calls *)

Module NetworkExtras.

Import Api ApiMore MetricsStore LiveSession Refresh Samples Observations.
Import RefreshFacts ScreenExtras.

Lemma or_else_not_empty a b : b <> "" -> or_else a b <> "".
Proof.
  intros Hb. unfold or_else. destruct (String.eqb_spec a ""); done.
Qed.

Lemma or_else_left a b : a <> "" -> or_else a b = a.
Proof.
  intros Ha. unfold or_else. by destruct (String.eqb_spec a "").
Qed.

Lemma get_json_reports_failures JSON_parse path generic :
  generic <> "" -> reports_failures JSON_parse (get_json JSON_parse path generic).
Proof.
  intros Hgeneric server token log.
  exists (mkRequest path [] ("Bearer " ++ token)). unfold get_json, fetch.
  destruct (server _) as [e|response]; [done|].
  destruct (ok response); simpl.
  - by destruct (JSON_parse (body response)).
  - split_and!; try done. eexists. split_and!; [done | |].
    + by apply or_else_not_empty.
    + apply or_else_left.
Qed.

(** X17. The four GET calls of the API ([fetchLatestMetrics],
    [fetchEhrAuthUrl], [fetchEhrConnection], [fetchEhrVitals]) treat the
    server's answer alike: each sends exactly one request carrying
    [Bearer <token>]; a fetch that fails rejects with the fetch's error; an
    [ok] reply resolves with the parsed body, or rejects with the parser's
    error when the body is not JSON; a reply that is not [ok] rejects with
    an [Error] whose message is never empty and is the body text whenever
    the body is not empty. *)
Theorem get_calls_report_failures (JSON_parse : string -> option jsval)
    (limit : option Z) (metricType : option string) :
  reports_failures JSON_parse (fetchEhrAuthUrl JSON_parse)
  /\ reports_failures JSON_parse (fetchEhrConnection JSON_parse)
  /\ reports_failures JSON_parse (fetchEhrVitals JSON_parse)
  /\ reports_failures JSON_parse
       (fun server token => fetchLatestMetrics JSON_parse server token limit metricType).
Proof.
  split_and!; try (apply get_json_reports_failures; discriminate).
  intros server token log. unfold fetchLatestMetrics, fetch.
  match goal with |- context [server ?r] => exists r end.
  destruct (server _) as [e|response]; [done|].
  destruct (ok response); simpl.
  - by destruct (JSON_parse (body response)).
  - split_and!; try done. eexists. split_and!; [done | |].
    + by apply or_else_not_empty.
    + apply or_else_left.
Qed.

(** X18. When the server answers every request with a reply that is not
    [ok] and the screen holds a non-empty token, [loadMetrics] sends one
    request, ends with the loading flag off and puts a sync error on screen
    that is never empty: the reply's body, or the generic text when the body
    is empty.  A callback that closed over a view with entries resolves and
    leaves view and store as they are; one that closed over an empty view
    ends as its cache read ends.  Without a token, or with the empty token,
    nothing is sent and the screen is left as it was. *)
Theorem http_failure_shows_sync_error (JSON_parse : string -> option jsval)
    (server : Server) (response : Response) (token : string)
    (metrics_length : nat) (a : App) (log : list Request)
    (Hserver : forall req, server req = FetchReplied response)
    (Hnot_ok : ok response = false) (Htoken : token <> "") :
  (exists req result message,
      loadMetrics_online JSON_parse server metrics_length (Some token) a log
      = (Some result, (log ++ [req])%list)
      /\ message <> ""
      /\ (body response <> "" -> message = body response)
      /\ (body response = "" -> message = "Failed to fetch metrics")
      /\ metricsError (screen result.2) = Some message
      /\ metricsError_rendered (screen result.2) = true
      /\ metricsLoading (screen result.2) = false
      /\ (metrics_length <> 0%nat ->
          result.1 = Resolved tt
          /\ metrics (screen result.2) = metrics (screen a)
          /\ store result.2 = store a)
      /\ (metrics_length = 0%nat ->
          result.1 = match (loadCachedMetrics (Some 20) (store a)).1 with
                     | Resolved _ => Resolved tt
                     | Rejected e => Rejected e
                     end))
  /\ loadMetrics_online JSON_parse server metrics_length None a log
     = (Some (Resolved tt, a), log)
  /\ loadMetrics_online JSON_parse server metrics_length (Some "") a log
     = (Some (Resolved tt, a), log).
Proof.
  split; [|done].
  assert (Hhas : has_token (Some token) = true).
  { simpl. by destruct (String.eqb_spec token ""). }
  unfold loadMetrics_online. rewrite Hhas.
  unfold fetchLatestMetrics, fetch. rewrite Hserver, Hnot_ok. simpl.
  set (message := or_else (body response) "Failed to fetch metrics").
  assert (Hmessage : message <> "") by (by apply or_else_not_empty).
  rewrite loadMetrics_phases, Hhas. simpl.
  destruct (loadMetrics_settle_rejected metrics_length (ThrownError message)
              (loadMetrics_start a)) as [Herror [Hkeep Hcache]].
  pose proof (loadMetrics_catch_outcome metrics_length (ThrownError message)
                (loadMetrics_start a)) as Hout.
  eexists _, _, message. split_and!.
  - reflexivity.
  - done.
  - apply or_else_left.
  - intros Hempty. unfold message, or_else. by rewrite Hempty.
  - exact Herror.
  - unfold metricsError_rendered. rewrite Herror. simpl.
    by destruct (String.eqb_spec message "").
  - unfold loadMetrics_settle. simpl.
    by destruct (loadMetrics_catch _ _ _).
  - intros Hne. by apply Hkeep.
  - intros ->. unfold loadMetrics_settle. simpl.
    destruct (loadMetrics_catch 0 (ThrownError message) (loadMetrics_start a));
      simpl in *. done.
Qed.

Lemma http_failure_shows_sync_error_witness :
  exists result,
    (loadMetrics_online (fun _ => None) unauthorized 0 (Some "token") (app0 false) []).1
    = Some result
    /\ metricsError (screen result.2) = Some detail_body.
Proof.
  destruct (http_failure_shows_sync_error (fun _ => None) unauthorized
              (mkResponse false detail_body) "token" 0 (app0 false) [])
    as [[req [result [message [Hrun [_ [Hbody [_ [Herror _]]]]]]]] _].
  - reflexivity.
  - reflexivity.
  - discriminate.
  - exists result. split.
    + exact (f_equal fst Hrun).
    + rewrite Herror. f_equal. apply Hbody. discriminate.
Defined.

End NetworkExtras.

(** ** Joining a room and signing in *)

Module JoinRoomExtras.

Import JoinRoom Observations.

Lemma join_attempt_route JSON_parse String_of reply room participant route :
  join_attempt JSON_parse String_of reply room participant = inr route ->
  truthy (route_token route) = true
  /\ truthy (route_url route) = true
  /\ route_roomName route = room
  /\ route_participantName route = participant
  /\ exists response data,
       reply = Api.FetchReplied response
       /\ Api.ok response = true
       /\ JSON_parse (Api.body response) = Some data
       /\ route_token route = get_opt data "token"
       /\ route_url route = get_opt data "url".
Proof.
  unfold join_attempt. destruct reply as [e|response]; [done|].
  destruct (Api.ok response) eqn:Hok; simpl; [|done].
  destruct (JSON_parse (Api.body response)) as [data|] eqn:Hparse; [|done].
  destruct (truthy (get_opt data "token")) eqn:Htoken; simpl; [|done].
  destruct (truthy (get_opt data "url")) eqn:Hurl; simpl; [|done].
  intros [= <-]. simpl. split_and!; try done. by exists response, data.
Qed.

(** What a failed attempt throws, by the way the server answered. *)
Lemma join_attempt_thrown JSON_parse String_of reply room participant err :
  join_attempt JSON_parse String_of reply room participant = inl err ->
  match reply with
  | Api.FetchFailed e => err = e
  | Api.FetchReplied response =>
      if Api.ok response then
        match JSON_parse (Api.body response) with
        | None => err = Api.syntax_error
        | Some data =>
            err = ThrownError "Missing LiveKit connection details."
            /\ (truthy (get_opt data "token") = false
                \/ truthy (get_opt data "url") = false)
        end
      else
        err = ThrownError
                (message_text String_of
                   (Api.requestToken_error_message JSON_parse (Api.body response)))
  end.
Proof.
  unfold join_attempt. destruct reply as [e|response]; [by intros [= <-]|].
  destruct (Api.ok response); simpl; [|by intros [= <-]].
  destruct (JSON_parse (Api.body response)) as [data|]; [|by intros [= <-]].
  destruct (truthy (get_opt data "token")) eqn:Htoken; simpl.
  - destruct (truthy (get_opt data "url")) eqn:Hurl; simpl; [done|].
    intros [= <-]. split; [done | by right].
  - intros [= <-]. split; [done | by left].
Qed.

(** X19. [requestToken] of the join screen: without a token, with a room
    name that is empty after trimming, or while a request is loading,
    nothing is sent and the screen does not change.  Otherwise exactly one
    request is sent, with the trimmed room name and a participant name that
    is never empty ([mobile-user] when the field is blank); loading ends; the
    inputs are kept; and the screen navigates only when the reply is [ok],
    parses, and holds a truthy [token] and [url], which are the ones handed
    to the live session with the names of the request.  In every other case
    the error cell is set: to the message of the rejected fetch or the
    generic text; for a reply that is not [ok], to the text taken from the
    body (the body itself, or the generic text, when it is no JSON); for an
    [ok] reply, to the parser's message or to the missing-details text.  The
    error line is on screen unless that message is empty, as it is for a
    reply that is not [ok] whose [detail] is the empty string. *)
Theorem requestToken_outcome (JSON_parse : string -> option jsval)
    (trim : string -> string) (String_of : jsval -> string)
    (server : RoomRequest -> Api.fetch_result) (accessToken : option string)
    (s : Screen) :
  let '(s', sent, route) :=
    requestToken JSON_parse trim String_of server accessToken s in
  if LiveSession.has_token accessToken && canJoin trim s then
    roomName s' = roomName s
    /\ participantName s' = participantName s
    /\ isLoading s' = false
    /\ exists req,
         sent = [req]
         /\ room_name req = trim (roomName s) /\ room_name req <> ""
         /\ participant_name req <> ""
         /\ (trim (participantName s) = "" -> participant_name req = "mobile-user")
         /\ match route with
            | Some r =>
                error s' = None
                /\ truthy (route_token r) = true
                /\ truthy (route_url r) = true
                /\ route_roomName r = room_name req
                /\ route_participantName r = participant_name req
                /\ exists response data,
                     server req = Api.FetchReplied response
                     /\ Api.ok response = true
                     /\ JSON_parse (Api.body response) = Some data
                     /\ route_token r = get_opt data "token"
                     /\ route_url r = get_opt data "url"
            | None =>
                exists message,
                  error s' = Some message
                  /\ (join_error_rendered s' = false <-> message = "")
                  /\ match server req with
                     | Api.FetchFailed (ThrownError thrown_message) =>
                         message = thrown_message
                     | Api.FetchFailed ThrownOther =>
                         message = "Unable to join the room."
                     | Api.FetchReplied response =>
                         if Api.ok response then
                           match JSON_parse (Api.body response) with
                           | None => ThrownError message = Api.syntax_error
                           | Some data =>
                               message = "Missing LiveKit connection details."
                               /\ (truthy (get_opt data "token") = false
                                   \/ truthy (get_opt data "url") = false)
                           end
                         else
                           match JSON_parse (Api.body response) with
                           | None =>
                               message <> ""
                               /\ message
                                  = (if String.eqb (Api.body response) ""
                                     then "Unable to join the room."
                                     else Api.body response)
                           | Some data =>
                               message
                               = message_text String_of
                                   (Api.requestToken_error_message JSON_parse
                                      (Api.body response))
                               /\ (forall detail,
                                     get_opt data "detail" = JStr detail ->
                                     message = detail)
                           end
                     end
            end
  else s' = s /\ sent = [] /\ route = None.
Proof.
  unfold requestToken.
  destruct accessToken as [token|]; [|done].
  destruct (LiveSession.has_token (Some token)) eqn:Htoken; simpl; [|done].
  destruct (canJoin trim s) eqn:Hjoin; simpl; [|done].
  set (room := trim (roomName s)).
  set (participant := Api.or_else (trim (participantName s)) "mobile-user").
  set (req := mkRoomRequest room participant ("Bearer " ++ token)).
  assert (Hroom : room <> "").
  { unfold canJoin in Hjoin. apply andb_true_iff in Hjoin as [Hlen _].
    fold room in Hlen. intros Hempty. rewrite Hempty in Hlen. done. }
  assert (Hparticipant : participant <> "").
  { unfold participant, Api.or_else.
    by destruct (String.eqb_spec (trim (participantName s)) ""). }
  destruct (join_attempt JSON_parse String_of (server req) room participant)
    as [err|route] eqn:Hattempt.
  - split_and!; try done. exists req. split_and!; try done.
    + intros Hblank. subst req participant. simpl. by rewrite Hblank.
    + apply join_attempt_thrown in Hattempt.
      eexists. split; [reflexivity|]. split.
      { unfold join_error_rendered. simpl.
        match goal with |- negb (String.eqb ?m "") = false <-> _ =>
          destruct (String.eqb_spec m "") as [Heq|Hne]; simpl; split; congruence
        end. }
      destruct (server req) as [e|response].
      * subst err. by destruct e.
      * destruct (Api.ok response).
        -- destruct (JSON_parse (Api.body response)) as [data|].
           ++ destruct Hattempt as [-> Hmissing]. done.
           ++ by subst err.
        -- subst err. simpl. unfold Api.requestToken_error_message.
           destruct (JSON_parse (Api.body response)) as [data|]; simpl.
           ++ split; [done|]. by intros detail ->.
           ++ unfold Api.or_else.
              destruct (String.eqb_spec (Api.body response) ""); done.
  - apply join_attempt_route in Hattempt as (Ht & Hu & Hr & Hp & Hreply).
    split_and!; try done. exists req. split_and!; try done.
    intros Hblank. subst req participant. simpl. by rewrite Hblank.
Qed.

End JoinRoomExtras.

Module AuthExtras.

Import Auth.

(** Split the conjunctions of the goal, and only those. *)
Ltac conjs := repeat match goal with |- _ /\ _ => split end.

(** A press on the login button while a login is in flight does nothing. *)
Lemma login_in_flight_ignored mentions_active_transaction s s1 a p :
  login_start s = Some s1 ->
  login mentions_active_transaction a p s1 = (s1, []).
Proof.
  unfold login, login_start.
  destruct (loginInFlight s || isLoading s); [done|]. by intros [= <-].
Qed.

(** X20. [login]: a call made while a login is in flight or loading does
    nothing. Otherwise the call starts with [authorize], ends with both
    [isLoading] and [loginInFlight] off (so that a next login is possible),
    keeps the access token of a successful [authorize] even when [userInfo]
    fails, sets the profile only when both calls succeed, ends without error
    exactly when both succeed, clears the Auth0 session exactly when the
    recorded error mentions an active transaction, and ignores a second
    press made before it has finished. *)
Theorem login_outcome (mentions_active_transaction : string -> bool)
    (authorized : raised + option string) (profile : raised + jsval) (s : AuthState) :
  let '(s', calls) := login mentions_active_transaction authorized profile s in
  if loginInFlight s || isLoading s then s' = s /\ calls = []
  else
    isLoading s' = false /\ loginInFlight s' = false
    /\ accessToken s' = match authorized with
                        | inr token => token
                        | inl _ => accessToken s
                        end
    /\ userProfile s' = match authorized, profile with
                        | inr _, inr p => Some p
                        | _, _ => userProfile s
                        end
    /\ (error s' = None <-> exists token p, authorized = inr token /\ profile = inr p)
    /\ (ClearSession ∈ calls <->
        exists message, error s' = Some message
                        /\ mentions_active_transaction message = true)
    /\ head calls = Some Authorize
    /\ (forall s1 a p, login_start s = Some s1 ->
          login mentions_active_transaction a p s1 = (s1, []))
    /\ is_Some (login_start s').
Proof.
  unfold login at 1. unfold login_start at 1 2.
  destruct (loginInFlight s || isLoading s) eqn:Hguard; [done|].
  unfold login_finish, login_catch.
  destruct authorized as [r|token]; [|destruct profile as [r|p]]; simpl.
  - conjs; try done.
    + split; [done | by intros (? & ? & ? & ?)].
    + destruct (mentions_active_transaction (message_of r)) eqn:Hm; split.
      * intros _. by exists (message_of r).
      * intros _. apply list_elem_of_further, list_elem_of_here.
      * intros Hin. apply elem_of_cons in Hin as [?|Hin]; [done|].
        by apply elem_of_nil in Hin.
      * intros (message & [= <-] & Hc). congruence.
    + intros s1 a0 p0 [= <-]. reflexivity.
  - conjs; try done.
    + split; [done | by intros (? & ? & ? & ?)].
    + destruct (mentions_active_transaction (message_of r)) eqn:Hm; split.
      * intros _. by exists (message_of r).
      * intros _. do 2 apply list_elem_of_further. apply list_elem_of_here.
      * intros Hin. apply elem_of_cons in Hin as [?|Hin]; [done|].
        apply elem_of_cons in Hin as [?|Hin]; [done|].
        by apply elem_of_nil in Hin.
      * intros (message & [= <-] & Hc). congruence.
    + intros s1 a0 p0 [= <-]. reflexivity.
  - conjs; try done.
    + split; [intros _; by exists token, p | done].
    + split; [intros Hin | by intros (message & ? & _)].
      apply elem_of_cons in Hin as [?|Hin]; [done|].
      apply elem_of_cons in Hin as [?|Hin]; [done|].
      by apply elem_of_nil in Hin.
    + intros s1 a0 p0 [= <-]. reflexivity.
Qed.

(** X21. [logout] clears the token and the profile and ends loading
    whether or not [clearSession] throws, and the throw goes on to the
    caller.  After it the navigator registers the Login screen alone; the
    metrics refresh, the join request and the EHR connect send nothing;
    [login] is possible again unless a login is still in flight; [loginDev]
    gives a token again. *)
Theorem logout_always_signs_out (cleared : option raised) (s : AuthState) :
  let '(thrown, s') := logout cleared s in
  thrown = cleared
  /\ accessToken s' = None /\ userProfile s' = None /\ isLoading s' = false
  /\ Navigator.screens (accessToken s') = ["Login"]
  /\ (is_Some (login_start s') <-> loginInFlight s = false)
  /\ Navigator.screens (accessToken (loginDev s')) <> ["Login"]
  /\ (forall metrics_length fetched a,
        LiveSession.loadMetrics metrics_length (accessToken s') fetched a
        = (Resolved tt, a))
  /\ (forall JSON_parse server metrics_length a log,
        ApiMore.loadMetrics_online JSON_parse server metrics_length (accessToken s') a log
        = (Some (Resolved tt, a), log))
  /\ (forall JSON_parse trim String_of server screen,
        JoinRoom.requestToken JSON_parse trim String_of server (accessToken s') screen
        = (screen, [], None))
  /\ (forall fetched opened screen,
        Ehr.handleConnect (accessToken s') fetched opened screen = (screen, [])).
Proof.
  simpl. conjs; try done.
  unfold login_start. simpl. destruct (loginInFlight s); split; try done.
  by intros [? ?].
Qed.

End AuthExtras.
(** ** The mock readings *)

Module SimulationExtras.

Import QArith Qround Qminmax Lqa.
Import Simulation.
Local Open Scope Z_scope.

(** Rewrite the integers of a goal on rationals. *)
Ltac to_Q :=
  unfold Z.sub in *;
  rewrite ?inject_Z_plus, ?inject_Z_opp in *;
  repeat match goal with
         | |- context [inject_Z (Zpos ?p)] =>
             change (inject_Z (Zpos p)) with (Qmake (Zpos p) 1)
         | H : context [inject_Z (Zpos ?p)] |- _ =>
             change (inject_Z (Zpos p)) with (Qmake (Zpos p) 1) in H
         end.

Lemma Math_round_between (a b : Z) (x : Q) :
  (inject_Z a <= x)%Q -> (x <= inject_Z b)%Q -> a <= Math_round x <= b.
Proof.
  intros Ha Hb. unfold Math_round. split.
  - rewrite <- (Qfloor_Z a). apply Qfloor_resp_le. lra.
  - cut (Qfloor (x + (1 # 2)) < b + 1); [lia|].
    rewrite Zlt_Qlt. eapply Qle_lt_trans; [apply Qfloor_le|].
    rewrite inject_Z_plus. change (inject_Z 1) with 1%Q. lra.
Qed.

Lemma clamp_between n lo hi : lo <= hi -> lo <= clamp n lo hi <= hi.
Proof. unfold clamp. lia. Qed.

Lemma clamp_inside n lo hi : lo <= n <= hi -> clamp n lo hi = n.
Proof. unfold clamp. lia. Qed.

Lemma clamp_near n lo hi c d :
  lo <= c <= hi -> c - d <= n <= c + d -> c - d <= clamp n lo hi <= c + d.
Proof. unfold clamp. lia. Qed.

Lemma round_offset (c : Z) (r scale half : Q) (d : Z) :
  unit_interval r -> (0 <= scale)%Q -> (inject_Z d == half)%Q -> (scale == half + half)%Q ->
  c - d <= Math_round (inject_Z c + (r * scale - half))%Q <= c + d.
Proof.
  intros [H0 H1] Hscale Hd Hsum. apply Math_round_between; to_Q; nra.
Qed.

Lemma dashboard_tick_prev r s : prevGlucose (dashboard_tick r s) = prevGlucose s.
Proof. done. Qed.

Lemma dashboard_tick_glucose r s :
  unit_draws r -> 75 <= prevGlucose s <= 215 ->
  prevGlucose s - 5 <= glucose (dashboard_tick r s) <= prevGlucose s + 5.
Proof.
  intros [Hr _] Hprev. unfold dashboard_tick. simpl.
  apply clamp_near; [lia|]. by apply round_offset.
Qed.

Lemma dashboard_tick_heartRate r s :
  unit_draws r -> 55 <= heartRate s <= 160 ->
  55 <= heartRate (dashboard_tick r s) <= 160
  /\ heartRate s - 4 <= heartRate (dashboard_tick r s) <= heartRate s + 4.
Proof.
  intros [_ Hr] Hhr. unfold dashboard_tick. simpl. split.
  - by apply clamp_between.
  - apply clamp_near; [lia|]. by apply round_offset.
Qed.

Lemma dashboard_run_snoc rs r s :
  dashboard_run (rs ++ [r]) s = dashboard_tick r (dashboard_run rs s).
Proof. unfold dashboard_run. by rewrite fold_left_app. Qed.

Lemma dashboard_run_invariant rs :
  Forall unit_draws rs ->
  prevGlucose (dashboard_run rs dashboard0) = 112
  /\ 107 <= glucose (dashboard_run rs dashboard0) <= 117
  /\ 55 <= heartRate (dashboard_run rs dashboard0) <= 160.
Proof.
  induction rs as [|r rs IH] using rev_ind; intros Hrs.
  - simpl. lia.
  - apply Forall_app in Hrs as [Hrs Hr]. apply Forall_inv in Hr.
    destruct (IH Hrs) as (Hprev & Hg & Hhr). rewrite dashboard_run_snoc.
    pose proof (dashboard_tick_glucose r (dashboard_run rs dashboard0) Hr) as Hnear.
    destruct (dashboard_tick_heartRate r _ Hr Hhr) as [Hb _].
    rewrite dashboard_tick_prev, Hprev in *. split_and!; try done; lia.
Qed.

(** X22. On the dashboard the updater of the interval returns the previous
    glucose unchanged, so it stays at the initial 112 for ever: after any
    number of ticks the glucose shown lies between 107 and 117 and depends on
    the last draw alone, the delta pill stays within 5 either way, and the
    trend is Stable exactly on 110..114.  The heart rate stays between 55 and
    160 and moves by at most 4 a tick.  The draws of [Math.random()] are taken
    in [0, 1). *)
Theorem dashboard_glucose_stays_near_112 (rs : list (Q * Q))
    (Hrs : Forall unit_draws rs) :
  let s := dashboard_run rs dashboard0 in
  prevGlucose s = 112
  /\ 107 <= glucose s <= 117
  /\ -5 <= delta s <= 5
  /\ 55 <= heartRate s <= 160
  /\ (trend s = Stable <-> 110 <= glucose s <= 114)
  /\ (forall r,
        glucose (dashboard_tick r s) = glucose (dashboard_tick r dashboard0))
  /\ (forall r, unit_draws r ->
        heartRate s - 4 <= heartRate (dashboard_tick r s) <= heartRate s + 4).
Proof.
  destruct (dashboard_run_invariant rs Hrs) as (Hprev & Hg & Hhr). cbv zeta.
  assert (Htrend : trend (dashboard_run rs dashboard0) = Stable
                   <-> 110 <= glucose (dashboard_run rs dashboard0) <= 114).
  { unfold trend, computeTrend. rewrite Hprev. cbv zeta.
    destruct (Z.leb_spec (Z.abs (glucose (dashboard_run rs dashboard0) - 112)) 2);
      [split; [lia | done]|].
    split; [|lia].
    by destruct (glucose (dashboard_run rs dashboard0) - 112 >? 0). }
  refine (conj Hprev (conj Hg (conj _ (conj Hhr (conj Htrend (conj _ _)))))).
  - unfold delta. lia.
  - intros r. unfold dashboard_tick. simpl. by rewrite Hprev.
  - intros r Hr. by apply dashboard_tick_heartRate.
Qed.

Lemma dashboard_glucose_stays_near_112_witness :
  prevGlucose (dashboard_run [(9 # 10, 0); (1 # 10, 1 # 2)]%Q dashboard0) = 112
  /\ glucose (dashboard_run [(9 # 10, 0); (1 # 10, 1 # 2)]%Q dashboard0) = 108.
Proof.
  destruct (dashboard_glucose_stays_near_112 [(9 # 10, 0); (1 # 10, 1 # 2)]%Q)
    as (Hprev & _).
  - repeat constructor; unfold unit_interval; simpl; done.
  - split; [exact Hprev | reflexivity].
Defined.

(** X23. [computeTrend] is Stable exactly when the readings differ by at
    most 2 and Rising exactly when the new one is more than 2 above; swapping
    the readings swaps Rising and Falling.  [computeZone] is monotone in the
    heart rate, so each zone is an interval; Rest is below 85 and Peak from
    140 on. *)
Theorem trend_and_zone (a b : Z) :
  (computeTrend a b = Stable <-> -2 <= b - a <= 2)
  /\ (computeTrend a b = Rising <-> 2 < b - a)
  /\ (computeTrend a b = Rising <-> computeTrend b a = Falling)
  /\ (a <= b -> zone_rank (computeZone a) <= zone_rank (computeZone b))
  /\ (computeZone a = computeZone b ->
      forall c, a <= c <= b -> computeZone c = computeZone a)
  /\ (computeZone a = Rest <-> a < 85)
  /\ (computeZone a = Peak <-> 140 <= a).
Proof.
  assert (Htrend : forall x y,
             (computeTrend x y = Stable <-> -2 <= y - x <= 2)
             /\ (computeTrend x y = Rising <-> 2 < y - x)
             /\ (computeTrend x y = Falling <-> 2 < x - y)).
  { intros x y. unfold computeTrend. cbv zeta.
    destruct (Z.leb_spec (Z.abs (y - x)) 2) as [Habs|Habs].
    - split_and!; split; intros; first [done | lia].
    - destruct (Z.gtb_spec (y - x) 0) as [Hpos|Hpos];
        split_and!; split; intros; first [done | lia]. }
  assert (Hzone : forall x,
             (computeZone x = Rest <-> x < 85)
             /\ (computeZone x = FatBurn <-> 85 <= x < 110)
             /\ (computeZone x = Cardio <-> 110 <= x < 140)
             /\ (computeZone x = Peak <-> 140 <= x)).
  { intros x. unfold computeZone.
    destruct (Z.ltb_spec x 85); [split_and!; split; intros; first [done | lia]|].
    destruct (Z.ltb_spec x 110); [split_and!; split; intros; first [done | lia]|].
    destruct (Z.ltb_spec x 140); split_and!; split; intros; first [done | lia]. }
  assert (Hmono : forall x y,
             x <= y -> zone_rank (computeZone x) <= zone_rank (computeZone y)).
  { intros x y Hxy. unfold computeZone.
    destruct (Z.ltb_spec x 85), (Z.ltb_spec x 110), (Z.ltb_spec x 140),
      (Z.ltb_spec y 85), (Z.ltb_spec y 110), (Z.ltb_spec y 140); simpl; lia. }
  destruct (Htrend a b) as (Hs & Hr & Hf). destruct (Htrend b a) as (_ & _ & Hf').
  destruct (Hzone a) as (Ha1 & _ & _ & Ha4).
  refine (conj Hs (conj Hr (conj _ (conj (Hmono a b) (conj _ (conj Ha1 Ha4)))))).
  - rewrite Hr, Hf'. done.
  - intros Hsame c [Hac Hcb].
    pose proof (Hmono a c Hac) as Hlow. pose proof (Hmono c b Hcb) as Hhigh.
    rewrite <- Hsame in Hhigh.
    destruct (computeZone a), (computeZone c); simpl in *; first [done | lia].
Qed.

Lemma next_glucose_between r prev : 70 <= next_glucose r prev <= 220.
Proof.
  unfold next_glucose. cbv zeta. apply Math_round_between; to_Q.
  - apply Q.le_max_l.
  - apply Q.max_lub; [done|]. apply Q.le_min_l.
Qed.

Lemma next_glucose_near r prev :
  unit_interval r -> 70 <= prev <= 220 ->
  prev - 5 <= next_glucose r prev <= prev + 5.
Proof.
  intros [H0 H1] [Hlow Hhigh]. unfold next_glucose. cbv zeta.
  rewrite Zle_Qle in Hlow, Hhigh.
  set (y := (inject_Z prev + (r - (1 # 2)) * 10)%Q).
  assert (Hy : (inject_Z prev - 5 <= y)%Q /\ (y <= inject_Z prev + 5)%Q).
  { unfold y. split; lra. }
  destruct Hy as [Hy1 Hy2].
  destruct (Q.max_spec 70 (Qmin 220 y)) as [[Hcmp0 Hmax]|[Hcmp0 Hmax]];
    destruct (Q.min_spec 220 y) as [[Hcmp Hmin]|[Hcmp Hmin]];
    apply Math_round_between; to_Q; lra.
Qed.

Lemma monitor_run_snoc ticks tick m :
  monitor_run (ticks ++ [tick]) m = monitor_tick tick (monitor_run ticks m).
Proof. unfold monitor_run. by rewrite fold_left_app. Qed.

(** X24. On the glucose screen, from a current value between 70 and 220
    and a history of readings in those bounds, any run of ticks keeps both
    there, whatever [Math.random()] returns; so the current value is never
    reported Low and its badge is never red.  The reading a tick records is
    the value shown before the tick, not the new one; and for a draw of
    [0, 1) the new value is at most 5 away from the old one. *)
Theorem monitor_walk_bounded (ticks : list (Z * Q)) (m0 : Monitor)
    (Hcur : 70 <= currentGlucose m0 <= 220)
    (Hhist : Forall reading_in_bounds (glucoseHistory m0)) :
  let m := monitor_run ticks m0 in
  70 <= currentGlucose m <= 220
  /\ Forall reading_in_bounds (glucoseHistory m)
  /\ Glucose.getStatusText (currentGlucose m) <> "Low"
  /\ Glucose.getStatusColor (currentGlucose m) <> "#EB5757"
  /\ (forall tick,
        last (glucoseHistory (monitor_tick tick m))
        = Some (Glucose.mkGlucoseReading tick.1 (currentGlucose m)))
  /\ (forall tick, unit_interval tick.2 ->
        currentGlucose m - 5
        <= currentGlucose (monitor_tick tick m)
        <= currentGlucose m + 5).
Proof.
  cbv zeta.
  assert (Hinv : 70 <= currentGlucose (monitor_run ticks m0) <= 220
                 /\ Forall reading_in_bounds (glucoseHistory (monitor_run ticks m0))).
  { induction ticks as [|tick ticks IH] using rev_ind; [done|].
    destruct IH as [IHcur IHhist]. rewrite monitor_run_snoc. split.
    - apply next_glucose_between.
    - simpl. unfold Glucose.push_reading, Glucose.slice_last.
      apply Forall_app. split; [by apply Forall_drop|].
      by apply Forall_singleton. }
  destruct Hinv as [Hc Hh].
  refine (conj Hc (conj Hh _)). split_and!.
  - unfold Glucose.getStatusText.
    destruct (Z.ltb_spec (currentGlucose (monitor_run ticks m0)) 70); [lia|].
    repeat case_match; done.
  - unfold Glucose.getStatusColor.
    destruct (Z.ltb_spec (currentGlucose (monitor_run ticks m0)) 70); [lia|].
    repeat case_match; done.
  - intros tick. simpl. unfold Glucose.push_reading. by rewrite last_snoc.
  - intros tick Htick. simpl. by apply next_glucose_near.
Qed.

Lemma monitor_walk_bounded_witness :
  currentGlucose (monitor_run [(3000, (9 # 10)%Q); (6000, 0%Q)] monitor0) = 111
  /\ map Glucose.value (glucoseHistory (monitor_run [(3000, (9 # 10)%Q); (6000, 0%Q)] monitor0))
     = [112; 116].
Proof.
  pose proof (monitor_walk_bounded [(3000, (9 # 10)%Q); (6000, 0%Q)] monitor0) as H.
  destruct H as [_ _].
  - simpl. lia.
  - constructor.
  - split; reflexivity.
Defined.

End SimulationExtras.
(** ** The EHR screen *)

Module EhrExtras.

Import Ehr.

Lemma step_while_disconnected accessToken s p :
  connected s = false -> reports_connection p = false ->
  connected (step accessToken s p) = false
  /\ vitals (step accessToken s p) = vitals s.
Proof.
  intros Hs Hp. destruct p as [fetched opened|fetched|result|fetched]; simpl.
  - destruct (isConnecting s); [done|]. unfold handleConnect.
    destruct (LiveSession.has_token accessToken); simpl; [|done].
    destruct fetched as [data|err]; [|done].
    destruct (get data "url"); [|done]. by destruct opened.
  - destruct (isLoading s); [done|]. unfold refreshStatus.
    destruct (LiveSession.has_token accessToken); simpl; [|done].
    by destruct fetched.
  - by rewrite Hs.
  - by rewrite Hs.
Qed.

(** X25. On the EHR screen the vitals need a connection that a refresh
    reported: while the status on screen does not say connected, no press
    (on Connect, Refresh, Disconnect or Pull vitals, whatever the calls
    answer) changes the vitals or makes the screen connected, except a
    refresh that resolves with a connected status.  A refresh never touches
    the vitals, also when it reports the connection gone.  A press on
    Disconnect whose call resolves either does nothing (button hidden or
    disabled, or no token) or leaves the screen not connected with the
    vitals emptied and no error. *)
Theorem vitals_need_a_reported_connection (accessToken : option string)
    (presses : list Press) (s : Screen)
    (Hs : connected s = false)
    (Hpresses : Forall (fun p => reports_connection p = false) presses) :
  connected (run accessToken s presses) = false
  /\ vitals (run accessToken s presses) = vitals s
  /\ (forall s0 fetched,
        vitals (step accessToken s0 (PressRefresh fetched)) = vitals s0)
  /\ (forall s0 result,
        let s1 := step accessToken s0 (PressDisconnect (Resolved result)) in
        s1 = s0
        \/ (connected s0 = true /\ LiveSession.has_token accessToken = true
            /\ connected s1 = false /\ vitals s1 = JArr [] /\ error s1 = None)).
Proof.
  split_and!.
  - revert s Hs. induction Hpresses as [|p ps Hp _ IH]; intros s Hs; [done|].
    simpl. apply IH. by apply step_while_disconnected.
  - revert s Hs. induction Hpresses as [|p ps Hp _ IH]; intros s Hs; [done|].
    simpl. destruct (step_while_disconnected accessToken s p Hs Hp) as [Hc Hv].
    rewrite <- Hv. by apply IH.
  - intros s0 fetched. simpl. destruct (isLoading s0); [done|].
    unfold refreshStatus.
    destruct (LiveSession.has_token accessToken); simpl; [|done].
    by destruct fetched.
  - intros s0 result. simpl.
    destruct (connected s0) eqn:Hc; simpl; [|by left].
    destruct (isLoading s0); simpl; [by left|]. unfold handleDisconnect.
    destruct (LiveSession.has_token accessToken); simpl; [|by left].
    by right.
Qed.

Lemma vitals_need_a_reported_connection_witness :
  vitals (run (Some "token") initial
            [PressPull (Resolved (JArr [JNum 1]));
             PressRefresh (Resolved (JObj [("connected", JBool false)]));
             PressPull (Resolved (JArr [JNum 1]))])
  = JArr [].
Proof.
  destruct (vitals_need_a_reported_connection (Some "token")
              [PressPull (Resolved (JArr [JNum 1]));
               PressRefresh (Resolved (JObj [("connected", JBool false)]));
               PressPull (Resolved (JArr [JNum 1]))] initial)
    as (_ & Hv & _ & _).
  - reflexivity.
  - repeat constructor.
  - exact Hv.
Defined.

End EhrExtras.
